(** * ch.AutoComplete: a shallow embedding and its verified properties

    The development follows src/shared/js/ch.AutoComplete.js.  The widget
    is modelled by explicit state passing: one record holds the fields of
    the instance together with the part of the page it reads and writes
    (the input element, the popover, the rendered list), every method and
    every event handler is a function from state to state, and the events
    the widget emits are appended to a log.

    Strings are sequences of code units below 256, so that a character is
    an [ascii]; numbers that the source subtracts from are in [Z]. *)

From Stdlib Require Import String Ascii List ZArith Lia Bool DecimalString.
Import ListNotations.
Open Scope string_scope.
Open Scope Z_scope.

(** ** Strings of the JavaScript runtime *)

Module JsString.

Definition mem (c : ascii) (s : string) : bool :=
  existsb (Ascii.eqb c) (list_ascii_of_string s).

(** The characters of the class in the replace call of [suggest]:
    . * + ? ^ = ! : $ { } ( ) | [ ] / and the backslash. *)
Definition escaped_class : string := ".*+?^=!:${}()|[]/\".

Definition backslash : ascii := "\"%char.

(** [value.replace(/([.*+?^=!:${}()|[\]\/\\])/g, "\\$1")]: every character
    of the class gets a backslash in front of it. *)
Fixpoint escapeRegExp (s : string) : string :=
  match s with
  | EmptyString => EmptyString
  | String c rest =>
      if mem c escaped_class
      then String backslash (String c (escapeRegExp rest))
      else String c (escapeRegExp rest)
  end.

(** ECMAScript's Canonicalize for a pattern with the [i] flag and without
    the [u] flag, on code units below 256: a letter goes to its upper
    case when that is again one code unit and stays in the same half
    (ASCII or not).  The micro sign and the y with diaeresis have upper
    cases above 255 that no other code unit below 256 shares, the sharp
    s has a two-letter one: each of them is matched by itself only. *)
Definition Canonicalize (c : ascii) : ascii :=
  let n := nat_of_ascii c in
  if ((97 <=? n) && (n <=? 122))%nat then ascii_of_nat (n - 32)
  else if ((224 <=? n) && (n <=? 254) && negb (n =? 247))%nat
       then ascii_of_nat (n - 32)
  else c.

Definition same_char (a b : ascii) : bool :=
  Ascii.eqb (Canonicalize a) (Canonicalize b).

(** [s] starts with the characters of [lit], up to case. *)
Fixpoint starts_with (lit s : string) : bool :=
  match lit, s with
  | EmptyString, _ => true
  | String _ _, EmptyString => false
  | String a lit', String b s' => same_char a b && starts_with lit' s'
  end.

Fixpoint take (n : nat) (s : string) : string :=
  match n, s with
  | S k, String c rest => String c (take k rest)
  | _, _ => EmptyString
  end.

Fixpoint drop (n : nat) (s : string) : string :=
  match n, s with
  | S k, String _ rest => drop k rest
  | _, _ => s
  end.

Fixpoint join (l : list string) : string :=
  match l with
  | [] => EmptyString
  | s :: rest => s ++ join rest
  end.

(** A number printed the way string concatenation prints an integer. *)
Definition of_number (z : Z) : string :=
  NilZero.string_of_int (Z.to_int z).

(** What a text input keeps of a value assigned to it: the text without
    its line feeds and carriage returns. *)
Fixpoint strip_line_breaks (s : string) : string :=
  match s with
  | EmptyString => EmptyString
  | String c rest =>
      if Ascii.eqb c "010"%char || Ascii.eqb c "013"%char
      then strip_line_breaks rest
      else String c (strip_line_breaks rest)
  end.

End JsString.

(** ** The fragment of regular expressions the widget builds *)

Module JsRegExp.
Import JsString.

(** Characters with a meaning of their own in a pattern. *)
Definition syntax_chars : string := "^$\.*+?()[]{}|".

(** The body of a group up to its closing parenthesis, when it is made
    of plain characters and of escaped punctuation only: the text it
    matches literally.  Any other pattern (an operator, a class, an
    escape with a meaning of its own such as a digit class) is outside
    the fragment and gives [None]. *)
Fixpoint group_body (p : string) : option string :=
  match p with
  | EmptyString => None
  | String c rest =>
      if Ascii.eqb c backslash then
        match rest with
        | String d rest' =>
            if mem d escaped_class
            then option_map (String d) (group_body rest')
            else None
        | EmptyString => None
        end
      else if Ascii.eqb c ")"%char then
        match rest with
        | EmptyString => Some EmptyString
        | String _ _ => None
        end
      else if mem c syntax_chars then None
      else option_map (String c) (group_body rest)
  end.

(** [new RegExp(source, 'ig')] for a source that is one capturing group
    around literal text: the text. *)
Definition literal_of_source (source : string) : option string :=
  match source with
  | String c body => if Ascii.eqb c "("%char then group_body body else None
  | EmptyString => None
  end.

Definition strong_open : string := "<strong>".
Definition strong_close : string := "</strong>".

(** [term.replace(re, '<strong>$1</strong>')] for the global,
    case-insensitive pattern that captures the non-empty literal [lit]:
    scanning from the left, each occurrence is replaced by itself
    between the tags and the scan goes on after it.  [fuel] bounds the
    number of positions visited. *)
Fixpoint replace_loop (fuel : nat) (lit s : string) : string :=
  match fuel with
  | O => s
  | S fuel' =>
      match s with
      | EmptyString => EmptyString
      | String c rest =>
          if starts_with lit s
          then strong_open ++ take (String.length lit) s ++ strong_close
               ++ replace_loop fuel' lit (drop (String.length lit) s)
          else String c (replace_loop fuel' lit rest)
      end
  end.

(** The empty group matches the empty string at every position,
    the end included. *)
Fixpoint replace_empty (s : string) : string :=
  match s with
  | EmptyString => strong_open ++ strong_close
  | String c rest => strong_open ++ strong_close ++ String c (replace_empty rest)
  end.

Definition replace_literal (lit s : string) : string :=
  match lit with
  | EmptyString => replace_empty s
  | String _ _ => replace_loop (String.length s) lit s
  end.

(** The replace call of [suggest] on a pattern source.  A source outside
    the literal fragment leaves the term as it is; [literal_of_escaped]
    below shows that [suggest] never builds one. *)
Definition replace_strong (source term : string) : string :=
  match literal_of_source source with
  | Some lit => replace_literal lit term
  | None => term
  end.

End JsRegExp.

(** ** The popover *)

(** Modelled from the spec: the popover sub-widget (ch.Popover) is an
    external collaborator whose file is not part of the source; the spec
    describes it as the floating overlay that shows and hides the rendered
    list, and the widget only calls its [show], [hide] and [isShown]. *)
Module Popover.

Record t := { shown : bool }.

Definition create : t := {| shown := false |}.
Definition show (_ : t) : t := {| shown := true |}.
Definition hide (_ : t) : t := {| shown := false |}.
Definition isShown (p : t) : bool := shown p.

End Popover.

(** ** Data of the widget *)

(** The configuration object, [_defaults] merged with the custom options. *)
Record options := {
  loadingClass : string;
  highlightedClass : string;
  side : string;
  align : string;
  keystrokesTime : Z;
  hiddenby : string;
  html : bool
}.

Definition _defaults : options := {|
  loadingClass := "ch-autoComplete-loading";
  highlightedClass := "ch-autoComplete-highlighted";
  side := "bottom";
  align := "left";
  keystrokesTime := 1000;
  hiddenby := "none";
  html := false
|}.

Definition with_keystrokesTime (ms : Z) (o : options) : options :=
  {| loadingClass := loadingClass o; highlightedClass := highlightedClass o;
     side := side o; align := align o; keystrokesTime := ms;
     hiddenby := hiddenby o; html := html o |}.

Definition with_html (b : bool) (o : options) : options :=
  {| loadingClass := loadingClass o; highlightedClass := highlightedClass o;
     side := side o; align := align o; keystrokesTime := keystrokesTime o;
     hiddenby := hiddenby o; html := b |}.

(** The events the widget emits. *)
Inductive event :=
| Ready
| Typing (query : string)
| Show
| Hide
| Select.

(** A list item as [suggest] writes it: its two ARIA attributes, what
    stands between the opening tag and the completion icon, and whether it
    carries the highlighted class. *)
Record item := {
  aria_setsize : Z;
  aria_posinset : Z;
  content : string;
  highlighted : bool
}.

(** An element of class ch-autoComplete-item that the page keeps in the
    popover container outside the suggestion list.  [suggest] numbers these
    after the suggestions; before that they have no position. *)
Record extra_item := {
  extra_posinset : option Z;
  extra_highlighted : bool
}.

(** The instance together with what it reads and writes on the page, the
    two timers it starts and the clock they run on (milliseconds). *)
Record widget := {
  _options : options;
  touch : bool;                    (* ch.support.touch *)
  _enabled : bool;
  el_value : string;               (* this._el.value *)
  el_focused : bool;               (* document.activeElement === this._el *)
  el_loading : bool;               (* the trigger carries loadingClass *)
  keyinput_handlers : nat;         (* handlers bound to ch.onkeyinput *)
  _popover : Popover.t;
  list_items : list item;          (* children of _$suggestionsList *)
  extra_items : list extra_item;
  _selected : option Z;
  _suggestions : list string;
  _originalQuery : string;
  _currentQuery : string;
  _suggestionsQuantity : Z;
  _stopTyping : option Z;          (* when the pending timeout is due *)
  ready_timer : option Z;
  clock : Z;
  emitted : list event             (* oldest first *)
}.

(** Assignments to one field. *)

Definition set_enabled (v : bool) (w : widget) : widget :=
  {| _options := _options w; touch := touch w; _enabled := v;
     el_value := el_value w; el_focused := el_focused w;
     el_loading := el_loading w; keyinput_handlers := keyinput_handlers w;
     _popover := _popover w; list_items := list_items w;
     extra_items := extra_items w; _selected := _selected w;
     _suggestions := _suggestions w; _originalQuery := _originalQuery w;
     _currentQuery := _currentQuery w;
     _suggestionsQuantity := _suggestionsQuantity w;
     _stopTyping := _stopTyping w; ready_timer := ready_timer w;
     clock := clock w; emitted := emitted w |}.

Definition set_el_value (v : string) (w : widget) : widget :=
  {| _options := _options w; touch := touch w; _enabled := _enabled w;
     el_value := v; el_focused := el_focused w; el_loading := el_loading w;
     keyinput_handlers := keyinput_handlers w; _popover := _popover w;
     list_items := list_items w; extra_items := extra_items w;
     _selected := _selected w; _suggestions := _suggestions w;
     _originalQuery := _originalQuery w; _currentQuery := _currentQuery w;
     _suggestionsQuantity := _suggestionsQuantity w;
     _stopTyping := _stopTyping w; ready_timer := ready_timer w;
     clock := clock w; emitted := emitted w |}.

Definition set_el_focused (v : bool) (w : widget) : widget :=
  {| _options := _options w; touch := touch w; _enabled := _enabled w;
     el_value := el_value w; el_focused := v; el_loading := el_loading w;
     keyinput_handlers := keyinput_handlers w; _popover := _popover w;
     list_items := list_items w; extra_items := extra_items w;
     _selected := _selected w; _suggestions := _suggestions w;
     _originalQuery := _originalQuery w; _currentQuery := _currentQuery w;
     _suggestionsQuantity := _suggestionsQuantity w;
     _stopTyping := _stopTyping w; ready_timer := ready_timer w;
     clock := clock w; emitted := emitted w |}.

Definition set_el_loading (v : bool) (w : widget) : widget :=
  {| _options := _options w; touch := touch w; _enabled := _enabled w;
     el_value := el_value w; el_focused := el_focused w; el_loading := v;
     keyinput_handlers := keyinput_handlers w; _popover := _popover w;
     list_items := list_items w; extra_items := extra_items w;
     _selected := _selected w; _suggestions := _suggestions w;
     _originalQuery := _originalQuery w; _currentQuery := _currentQuery w;
     _suggestionsQuantity := _suggestionsQuantity w;
     _stopTyping := _stopTyping w; ready_timer := ready_timer w;
     clock := clock w; emitted := emitted w |}.

Definition set_keyinput_handlers (v : nat) (w : widget) : widget :=
  {| _options := _options w; touch := touch w; _enabled := _enabled w;
     el_value := el_value w; el_focused := el_focused w;
     el_loading := el_loading w; keyinput_handlers := v;
     _popover := _popover w; list_items := list_items w;
     extra_items := extra_items w; _selected := _selected w;
     _suggestions := _suggestions w; _originalQuery := _originalQuery w;
     _currentQuery := _currentQuery w;
     _suggestionsQuantity := _suggestionsQuantity w;
     _stopTyping := _stopTyping w; ready_timer := ready_timer w;
     clock := clock w; emitted := emitted w |}.

Definition set_popover (v : Popover.t) (w : widget) : widget :=
  {| _options := _options w; touch := touch w; _enabled := _enabled w;
     el_value := el_value w; el_focused := el_focused w;
     el_loading := el_loading w; keyinput_handlers := keyinput_handlers w;
     _popover := v; list_items := list_items w; extra_items := extra_items w;
     _selected := _selected w; _suggestions := _suggestions w;
     _originalQuery := _originalQuery w; _currentQuery := _currentQuery w;
     _suggestionsQuantity := _suggestionsQuantity w;
     _stopTyping := _stopTyping w; ready_timer := ready_timer w;
     clock := clock w; emitted := emitted w |}.

Definition set_list_items (v : list item) (w : widget) : widget :=
  {| _options := _options w; touch := touch w; _enabled := _enabled w;
     el_value := el_value w; el_focused := el_focused w;
     el_loading := el_loading w; keyinput_handlers := keyinput_handlers w;
     _popover := _popover w; list_items := v; extra_items := extra_items w;
     _selected := _selected w; _suggestions := _suggestions w;
     _originalQuery := _originalQuery w; _currentQuery := _currentQuery w;
     _suggestionsQuantity := _suggestionsQuantity w;
     _stopTyping := _stopTyping w; ready_timer := ready_timer w;
     clock := clock w; emitted := emitted w |}.

Definition set_extra_items (v : list extra_item) (w : widget) : widget :=
  {| _options := _options w; touch := touch w; _enabled := _enabled w;
     el_value := el_value w; el_focused := el_focused w;
     el_loading := el_loading w; keyinput_handlers := keyinput_handlers w;
     _popover := _popover w; list_items := list_items w; extra_items := v;
     _selected := _selected w; _suggestions := _suggestions w;
     _originalQuery := _originalQuery w; _currentQuery := _currentQuery w;
     _suggestionsQuantity := _suggestionsQuantity w;
     _stopTyping := _stopTyping w; ready_timer := ready_timer w;
     clock := clock w; emitted := emitted w |}.

Definition set_selected (v : option Z) (w : widget) : widget :=
  {| _options := _options w; touch := touch w; _enabled := _enabled w;
     el_value := el_value w; el_focused := el_focused w;
     el_loading := el_loading w; keyinput_handlers := keyinput_handlers w;
     _popover := _popover w; list_items := list_items w;
     extra_items := extra_items w; _selected := v;
     _suggestions := _suggestions w; _originalQuery := _originalQuery w;
     _currentQuery := _currentQuery w;
     _suggestionsQuantity := _suggestionsQuantity w;
     _stopTyping := _stopTyping w; ready_timer := ready_timer w;
     clock := clock w; emitted := emitted w |}.

Definition set_suggestions (v : list string) (w : widget) : widget :=
  {| _options := _options w; touch := touch w; _enabled := _enabled w;
     el_value := el_value w; el_focused := el_focused w;
     el_loading := el_loading w; keyinput_handlers := keyinput_handlers w;
     _popover := _popover w; list_items := list_items w;
     extra_items := extra_items w; _selected := _selected w;
     _suggestions := v; _originalQuery := _originalQuery w;
     _currentQuery := _currentQuery w;
     _suggestionsQuantity := _suggestionsQuantity w;
     _stopTyping := _stopTyping w; ready_timer := ready_timer w;
     clock := clock w; emitted := emitted w |}.

Definition set_originalQuery (v : string) (w : widget) : widget :=
  {| _options := _options w; touch := touch w; _enabled := _enabled w;
     el_value := el_value w; el_focused := el_focused w;
     el_loading := el_loading w; keyinput_handlers := keyinput_handlers w;
     _popover := _popover w; list_items := list_items w;
     extra_items := extra_items w; _selected := _selected w;
     _suggestions := _suggestions w; _originalQuery := v;
     _currentQuery := _currentQuery w;
     _suggestionsQuantity := _suggestionsQuantity w;
     _stopTyping := _stopTyping w; ready_timer := ready_timer w;
     clock := clock w; emitted := emitted w |}.

Definition set_currentQuery (v : string) (w : widget) : widget :=
  {| _options := _options w; touch := touch w; _enabled := _enabled w;
     el_value := el_value w; el_focused := el_focused w;
     el_loading := el_loading w; keyinput_handlers := keyinput_handlers w;
     _popover := _popover w; list_items := list_items w;
     extra_items := extra_items w; _selected := _selected w;
     _suggestions := _suggestions w; _originalQuery := _originalQuery w;
     _currentQuery := v; _suggestionsQuantity := _suggestionsQuantity w;
     _stopTyping := _stopTyping w; ready_timer := ready_timer w;
     clock := clock w; emitted := emitted w |}.

Definition set_suggestionsQuantity (v : Z) (w : widget) : widget :=
  {| _options := _options w; touch := touch w; _enabled := _enabled w;
     el_value := el_value w; el_focused := el_focused w;
     el_loading := el_loading w; keyinput_handlers := keyinput_handlers w;
     _popover := _popover w; list_items := list_items w;
     extra_items := extra_items w; _selected := _selected w;
     _suggestions := _suggestions w; _originalQuery := _originalQuery w;
     _currentQuery := _currentQuery w; _suggestionsQuantity := v;
     _stopTyping := _stopTyping w; ready_timer := ready_timer w;
     clock := clock w; emitted := emitted w |}.

Definition set_stopTyping (v : option Z) (w : widget) : widget :=
  {| _options := _options w; touch := touch w; _enabled := _enabled w;
     el_value := el_value w; el_focused := el_focused w;
     el_loading := el_loading w; keyinput_handlers := keyinput_handlers w;
     _popover := _popover w; list_items := list_items w;
     extra_items := extra_items w; _selected := _selected w;
     _suggestions := _suggestions w; _originalQuery := _originalQuery w;
     _currentQuery := _currentQuery w;
     _suggestionsQuantity := _suggestionsQuantity w; _stopTyping := v;
     ready_timer := ready_timer w; clock := clock w; emitted := emitted w |}.

Definition set_ready_timer (v : option Z) (w : widget) : widget :=
  {| _options := _options w; touch := touch w; _enabled := _enabled w;
     el_value := el_value w; el_focused := el_focused w;
     el_loading := el_loading w; keyinput_handlers := keyinput_handlers w;
     _popover := _popover w; list_items := list_items w;
     extra_items := extra_items w; _selected := _selected w;
     _suggestions := _suggestions w; _originalQuery := _originalQuery w;
     _currentQuery := _currentQuery w;
     _suggestionsQuantity := _suggestionsQuantity w;
     _stopTyping := _stopTyping w; ready_timer := v; clock := clock w;
     emitted := emitted w |}.

Definition set_clock (v : Z) (w : widget) : widget :=
  {| _options := _options w; touch := touch w; _enabled := _enabled w;
     el_value := el_value w; el_focused := el_focused w;
     el_loading := el_loading w; keyinput_handlers := keyinput_handlers w;
     _popover := _popover w; list_items := list_items w;
     extra_items := extra_items w; _selected := _selected w;
     _suggestions := _suggestions w; _originalQuery := _originalQuery w;
     _currentQuery := _currentQuery w;
     _suggestionsQuantity := _suggestionsQuantity w;
     _stopTyping := _stopTyping w; ready_timer := ready_timer w; clock := v;
     emitted := emitted w |}.

Definition set_emitted (v : list event) (w : widget) : widget :=
  {| _options := _options w; touch := touch w; _enabled := _enabled w;
     el_value := el_value w; el_focused := el_focused w;
     el_loading := el_loading w; keyinput_handlers := keyinput_handlers w;
     _popover := _popover w; list_items := list_items w;
     extra_items := extra_items w; _selected := _selected w;
     _suggestions := _suggestions w; _originalQuery := _originalQuery w;
     _currentQuery := _currentQuery w;
     _suggestionsQuantity := _suggestionsQuantity w;
     _stopTyping := _stopTyping w; ready_timer := ready_timer w;
     clock := clock w; emitted := v |}.

(** ** Events, the popover and the input element *)

Import JsString JsRegExp.

(** The listener of the widget's own event [typing], bound in [_init]. *)
Definition on_typing (currentQuery : string) (w : widget) : widget :=
  if _enabled w
  then set_el_loading true (set_currentQuery currentQuery w)
  else w.

(** [this.emit(e)]: the event reaches the listeners of the page, which the
    log stands for, and the one listener the widget has bound itself. *)
Definition emit (e : event) (w : widget) : widget :=
  let w := set_emitted (emitted w ++ [e]) w in
  match e with
  | Typing q => on_typing q w
  | _ => w
  end.

Definition isShown (w : widget) : bool := Popover.isShown (_popover w).

Definition hide (w : widget) : widget :=
  let w := emit Hide w in
  set_popover (Popover.hide (_popover w)) w.

Definition _show (w : widget) : widget :=
  let w := set_popover (Popover.show (_popover w)) w in
  emit Show w.

(** The handler of [blur] on the input. *)
Definition on_blur (w : widget) : widget :=
  if _enabled w
  then set_keyinput_handlers O (hide w)
  else w.

(** The handler of [focus] on the input: it binds one more keystroke
    handler each time it runs. *)
Definition on_focus (w : widget) : widget :=
  if _enabled w
  then set_keyinput_handlers (S (keyinput_handlers w))
         (set_originalQuery (el_value w) w)
  else w.

(** The keystroke handler: the pending timeout is cleared and a new one
    of 400 is started. *)
Definition on_keyinput (w : widget) : widget :=
  set_stopTyping (Some (clock w + 400)) w.

(** [this._el.blur()]: a focused input loses the focus and its blur
    handler runs; on an input without focus nothing happens. *)
Definition el_blur (w : widget) : widget :=
  if el_focused w then on_blur (set_el_focused false w) else w.

(** The handler of the widget's event [disable]. *)
Definition on_disable (w : widget) : widget :=
  if isShown w then el_blur (hide w) else w.

(** ** Selection *)

(** [this._suggestions[this._selected]] as the value setter of the input
    reads it: a missing element is undefined and is written as text. *)
Definition suggestion_at (l : list string) (sel : option Z) : string :=
  match sel with
  | Some k => if 0 <=? k then nth (Z.to_nat k) l "undefined" else "undefined"
  | None => "undefined"
  end.

(** [this._el.value = text]: the input is a text input, which stores the
    text without its line breaks. *)
Definition assign_value (text : string) (w : widget) : widget :=
  set_el_value (strip_line_breaks text) w.

Definition _setQuery (w : widget) : widget :=
  let w := set_stopTyping None w in
  match _selected w with
  | None => w
  | Some _ =>
      let w := if html (_options w) then w
               else assign_value (suggestion_at (_suggestions w) (_selected w)) w in
      let w := emit Select w in
      el_blur w
  end.

(** Where a pointer event inside the popover container lands.  A
    suggestion goes into the markup of its item as it is, so an item can
    hold elements of the suggestion's own markup besides the emphasis and
    the icon that [suggest] writes; an extra item holds what the page put
    in it.  [own] is the integer that parseInt reads from the own
    aria-posinset of such an element, when it has one (an own
    aria-posinset that does not read as an integer is not represented).
    Only the marks of the items and of the extra items are kept track of,
    not those of the elements inside them. *)
Inductive target :=
| ItemLi (i : nat)
    (* the li of the i-th suggestion *)
| ItemChild (i : nat) (own : option Z)
    (* an element directly inside it that is no i element *)
| ItemIcon (i : nat)
    (* the completion icon that suggest wrote into it *)
| ItemInner (i : nat) (own : option Z)
    (* an element deeper inside it that is no i element *)
| ItemMarkupI (i : nat) (direct : bool) (own : option Z)
    (* an i element of the suggestion's markup, directly inside or deeper *)
| ExtraLi (j : nat)
    (* the j-th extra item, a li *)
| ExtraInside (j : nat) (direct : bool) (is_i : bool) (own : option Z)
    (* an element inside it: directly or deeper, an i element or not *)
| Elsewhere.
    (* the list, the container *)

(** The element exists in the page. *)
Definition present (t : target) (w : widget) : bool :=
  match t with
  | ItemLi i | ItemChild i _ | ItemIcon i | ItemInner i _
  | ItemMarkupI i _ _ =>
      (i <? List.length (list_items w))%nat
  | ExtraLi j | ExtraInside j _ _ _ =>
      (j <? List.length (extra_items w))%nat
  | Elsewhere => true
  end.

(** [event.target.nodeName === 'I'] *)
Definition is_icon (t : target) : bool :=
  match t with
  | ItemIcon _ | ItemMarkupI _ _ _ => true
  | ExtraInside _ _ is_i _ => is_i
  | _ => false
  end.

(** The target is a li of class ch-autoComplete-item. *)
Definition is_item (t : target) : bool :=
  match t with ItemLi _ | ExtraLi _ => true | _ => false end.

(** The parent element of the target is a li of class ch-autoComplete-item. *)
Definition parent_is_item (t : target) : bool :=
  match t with
  | ItemChild _ _ | ItemIcon _ => true
  | ItemMarkupI _ direct _ | ExtraInside _ direct _ _ => direct
  | _ => false
  end.

(** The own aria-posinset of the target, for an element that is neither
    an item nor an extra item. *)
Definition own_position (t : target) : option Z :=
  match t with
  | ItemChild _ own | ItemInner _ own | ItemMarkupI _ _ own
  | ExtraInside _ _ _ own => own
  | _ => None
  end.

(** The aria-posinset of the li that is the target or that is around it. *)
Definition li_position (t : target) (w : widget) : option Z :=
  match t with
  | ItemLi i | ItemChild i _ | ItemIcon i | ItemInner i _
  | ItemMarkupI i _ _ =>
      option_map aria_posinset (nth_error (list_items w) i)
  | ExtraLi j | ExtraInside j _ _ _ =>
      match nth_error (extra_items w) j with
      | Some e => extra_posinset e
      | None => None
      end
  | Elsewhere => None
  end.

(** The aria-posinset of [$item] in [_select]: the target's own when it
    has one, or else that of the li around it; [None] when [$item] is
    empty. *)
Definition posinset_of (t : target) (w : widget) : option Z :=
  match own_position t with
  | Some p => Some p
  | None => li_position t w
  end.

Definition label_eqb (current : option Z) (p : Z) : bool :=
  match current with
  | Some c => c =? p
  | None => false
  end.

(** The highlighted class is taken from every element with a position and
    given to the one at position [_selected + 1]. *)
Definition _toogleHighlighted (w : widget) : widget :=
  let current := option_map (fun k => k + 1) (_selected w) in
  let li (it : item) :=
    {| aria_setsize := aria_setsize it; aria_posinset := aria_posinset it;
       content := content it;
       highlighted := label_eqb current (aria_posinset it) |} in
  let ex (e : extra_item) :=
    match extra_posinset e with
    | Some p => {| extra_posinset := Some p;
                   extra_highlighted := label_eqb current p |}
    | None => e
    end in
  set_extra_items (map ex (extra_items w)) (set_list_items (map li (list_items w)) w).

Definition _select (t : target) (w : widget) : widget :=
  let w :=
    match posinset_of t w with
    | Some p => set_selected (Some (p - 1)) w
    | None => set_selected None w
    end in
  _toogleHighlighted w.

(** The second handler of the pointer-down event on the container. *)
Definition on_pointerdown (t : target) (w : widget) : widget :=
  if is_icon t && negb (html (_options w)) then
    let w := assign_value (suggestion_at (_suggestions w) (_selected w)) w in
    emit (Typing (el_value w)) w
  else if is_item t || parent_is_item t then _setQuery w
  else w.

(** ** Rendering *)

Definition dq : string := String "034"%char EmptyString.

(** The class attribute of an item: the class [suggest] writes, and the
    highlighted class after it on the item that [_toogleHighlighted]
    marked. *)
Definition item_class (o : options) (it : item) : string :=
  if highlighted it
  then "ch-autoComplete-item " ++ highlightedClass o
  else "ch-autoComplete-item".

(** The markup of one item: what [suggest] pushes for it, with the class
    attribute as it stands. *)
Definition item_html (o : options) (it : item) : string :=
  "<li aria-setsize=" ++ dq ++ of_number (aria_setsize it) ++ dq
  ++ " aria-posinset=" ++ dq ++ of_number (aria_posinset it) ++ dq
  ++ " class=" ++ dq ++ item_class o it ++ dq ++ ">"
  ++ content it
  ++ "<i class=" ++ dq ++ "ch-icon-arrow-up" ++ dq
  ++ " data-js=" ++ dq ++ "ch-autoComplete-complete-query" ++ dq
  ++ "></i></li>".

(** [this._$suggestionsList[0].innerHTML] *)
Definition innerHTML (w : widget) : string :=
  join (map (item_html (_options w)) (list_items w)).

(** The forEach over the suggestions, from index [i] on. *)
Fixpoint render_items (raw : bool) (source : string) (totalItems i : Z)
    (terms : list string) : list item :=
  match terms with
  | [] => []
  | term :: rest =>
      {| aria_setsize := totalItems;
         aria_posinset := i + 1;
         content := if raw then term else replace_strong source term;
         highlighted := false |}
      :: render_items raw source totalItems (i + 1) rest
  end.

(** The each over the extra items, from index [index] on. *)
Fixpoint number_extras (len index : Z) (extras : list extra_item)
    : list extra_item :=
  match extras with
  | [] => []
  | e :: rest =>
      {| extra_posinset := Some (len + index + 1);
         extra_highlighted := extra_highlighted e |}
      :: number_extras len (index + 1) rest
  end.

Definition zlength {A} (l : list A) : Z := Z.of_nat (List.length l).

Definition suggest (suggestions : list string) (w : widget) : widget :=
  let query := escapeRegExp (el_value w) in
  let source := "(" ++ query ++ ")" in
  let w := set_el_loading false w in
  if (zlength suggestions =? 0) || String.eqb query EmptyString then
    set_popover (Popover.hide (_popover w)) w
  else
    let w := if negb (Popover.isShown (_popover w)) && el_focused w
             then _show w else w in
    let w := set_list_items [] w in
    let w := set_suggestions suggestions w in
    let extraItems := extra_items w in
    let totalItems :=
      if 0 <? zlength extraItems
      then 0 + zlength extraItems - 1
      else zlength (_suggestions w) in
    let items :=
      render_items (html (_options w)) source totalItems 0 (_suggestions w) in
    let w :=
      set_extra_items (number_extras (zlength (_suggestions w)) 0 extraItems) w in
    let w := set_selected None w in
    let w := set_list_items items w in
    set_suggestionsQuantity (zlength items + zlength extraItems) w.

(** ** Construction *)

(** The state [_init] leaves: the options are the merged configuration,
    [value] is the text of the input and [focused] tells whether it is the
    active element when the widget is built, at time [now].  The base
    class leaves the widget enabled, and the container of a new popover
    holds the empty list only. *)
Definition _init (o : options) (is_touch : bool) (value : string)
    (focused : bool) (now : Z) : widget :=
  {| _options := o; touch := is_touch; _enabled := true;
     el_value := value; el_focused := focused; el_loading := false;
     keyinput_handlers := O; _popover := Popover.create;
     list_items := []; extra_items := []; _selected := None;
     _suggestions := []; _originalQuery := value; _currentQuery := value;
     _suggestionsQuantity := 0; _stopTyping := None; ready_timer := None;
     clock := now; emitted := [] |}.

(** The constructor: [_init], then the timeout of 50 that emits [ready]. *)
Definition AutoComplete (o : options) (is_touch : bool) (value : string)
    (focused : bool) (now : Z) : widget :=
  let w := _init o is_touch value focused now in
  set_ready_timer (Some (clock w + 50)) w.

(** ** Timers *)

Definition due (t : Z) (timer : option Z) : bool :=
  match timer with
  | Some d => d <=? t
  | None => false
  end.

Definition fire_ready (w : widget) : widget :=
  emit Ready (set_ready_timer None w).

(** The callback of the keystroke timeout. *)
Definition fire_stopTyping (w : widget) : widget :=
  emit (Typing (el_value w)) (set_stopTyping None w).

Definition earlier (a b : option Z) : bool :=
  match a, b with
  | Some x, Some y => x <? y
  | _, _ => false
  end.

(** The clock moves to [t]: the timeouts due by then run, the earlier one
    first, and on a tie the one of the constructor, which was set first. *)
Definition run_until (t : Z) (w : widget) : widget :=
  let w :=
    match due t (ready_timer w), due t (_stopTyping w) with
    | true, true =>
        if earlier (_stopTyping w) (ready_timer w)
        then fire_ready (fire_stopTyping w)
        else fire_stopTyping (fire_ready w)
    | true, false => fire_ready w
    | false, true => fire_stopTyping w
    | false, false => w
    end in
  set_clock t w.

Definition advance (dt : Z) (w : widget) : widget :=
  run_until (clock w + dt) w.

(** ** What the browser does *)

(** The user puts the focus on the input. *)
Definition focus (w : widget) : widget :=
  if el_focused w then w else on_focus (set_el_focused true w).

(** The input loses the focus. *)
Definition blur (w : widget) : widget := el_blur w.

Fixpoint repeat_handler (n : nat) (h : widget -> widget) (w : widget) : widget :=
  match n with
  | O => w
  | S k => repeat_handler k h (h w)
  end.

(** A keystroke leaves [value] in the input, then the bound keystroke
    handlers run. *)
Definition keyinput (value : string) (w : widget) : widget :=
  repeat_handler (keyinput_handlers w) on_keyinput (set_el_value value w).

(** An element that is not in the page cannot be a target. *)
Definition locate (t : target) (w : widget) : target :=
  if present t w then t else Elsewhere.

(** The pointer comes over an element of the container: the highlight
    handler is bound to this event on devices without touch. *)
Definition mouseover (t : target) (w : widget) : widget :=
  if touch w then w else _select (locate t w) w.

(** The pointer is pressed on an element of the container: with touch the
    highlight handler is bound to this event too, and it was bound first. *)
Definition mousedown (t : target) (w : widget) : widget :=
  let t := locate t w in
  let w := if touch w then _select t w else w in
  on_pointerdown t w.

(** Modelled from the spec: [enable] and [disable] are inherited from the
    base class ch.Widget, whose file is not part of the source.  In the
    lifecycle of the spec the widget is either disabled or enabled, and
    disabling is what the handler of [disable] above answers to. *)
Definition disable (w : widget) : widget := on_disable (set_enabled false w).
Definition enable (w : widget) : widget := set_enabled true w.

(** One step in the life of the widget. *)
Inductive op :=
| Suggest (suggestions : list string)
| HideIt
| Focus
| Blur
| KeyInput (value : string)
| MouseOver (t : target)
| MouseDown (t : target)
| Disable
| Enable
| Wait (dt : Z).

Definition run (o : op) (w : widget) : widget :=
  match o with
  | Suggest l => suggest l w
  | HideIt => hide w
  | Focus => focus w
  | Blur => blur w
  | KeyInput v => keyinput v w
  | MouseOver t => mouseover t w
  | MouseDown t => mousedown t w
  | Disable => disable w
  | Enable => enable w
  | Wait dt => advance dt w
  end.

Definition run_all (ops : list op) (w : widget) : widget :=
  fold_left (fun w o => run o w) ops w.

(** ** Notions the properties are stated with *)

(** Two texts of the same length that agree up to case. *)
Fixpoint ci_equal (a b : string) : bool :=
  match a, b with
  | EmptyString, EmptyString => true
  | String x a', String y b' => same_char x y && ci_equal a' b'
  | _, _ => false
  end.

(** An occurrence of [lit], up to case, starts the text [s]. *)
Definition occurs_at_start (lit s : string) : Prop :=
  exists m rest, s = m ++ rest /\ ci_equal lit m = true.

(** [out] is the text [s] with its occurrences of [lit] wrapped in emphasis
    markup, taken from the left and without overlap. *)
Inductive Emphasised (lit : string) : string -> string -> Prop :=
| Emph_end : Emphasised lit EmptyString EmptyString
| Emph_match (m rest out : string) :
    ci_equal lit m = true ->
    Emphasised lit rest out ->
    Emphasised lit (m ++ rest) ("<strong>" ++ m ++ "</strong>" ++ out)
| Emph_skip (c : ascii) (rest out : string) :
    ~ occurs_at_start lit (String c rest) ->
    Emphasised lit rest out ->
    Emphasised lit (String c rest) (String c out).

(** The queries of the [typing] events of a log, oldest first. *)
Fixpoint typing_events (log : list event) : list string :=
  match log with
  | [] => []
  | Typing q :: rest => q :: typing_events rest
  | _ :: rest => typing_events rest
  end.

Definition count_select (log : list event) : nat :=
  List.length (filter (fun e => match e with Select => true | _ => false end) log).

(** A burst of keystrokes: each comes [gap] after the one before it and
    leaves [value] in the input. *)
Fixpoint type_keys (keys : list (Z * string)) (w : widget) : widget :=
  match keys with
  | [] => w
  | (gap, value) :: rest => type_keys rest (keyinput value (advance gap w))
  end.

(** The selected index is a position into a sequence of [n] elements. *)
Definition selected_below (n : Z) (w : widget) : Prop :=
  forall k, _selected w = Some k -> 0 <= k < n.

(** The selected index is a position into the suggestions. *)
Definition selected_valid (w : widget) : Prop :=
  selected_below (zlength (_suggestions w)) w.

(** The rendered items are the suggestions, numbered from 1 in order. *)
Definition items_numbered (w : widget) : Prop :=
  List.length (list_items w) = List.length (_suggestions w)
  /\ forall i it, nth_error (list_items w) i = Some it ->
                  aria_posinset it = Z.of_nat i + 1.



(** ** Sample states *)

(** A widget with the default options on a device without touch, built at
    time 0 on an unfocused input that reads ca, focused afterwards. *)
Definition sample_widget : widget :=
  focus (AutoComplete _defaults false "ca" false 0).

(** The same after the page supplied two suggestions. *)
Definition sample_suggested : widget :=
  suggest ["cat"; "car"] sample_widget.

(** The same with the pointer over the second item. *)
Definition sample_highlighted : widget :=
  mouseover (ItemLi 1) sample_suggested.

(** A widget whose page keeps one extra item in the popover container. *)
Definition sample_with_extra : widget :=
  set_extra_items [{| extra_posinset := None; extra_highlighted := false |}]
    sample_widget.

(** The markup of the two items of [sample_suggested], written out. *)
Definition sample_markup : list string :=
  [ "<li aria-setsize=" ++ dq ++ "2" ++ dq ++ " aria-posinset=" ++ dq ++ "1" ++ dq
    ++ " class=" ++ dq ++ "ch-autoComplete-item" ++ dq
    ++ "><strong>ca</strong>t<i class=" ++ dq ++ "ch-icon-arrow-up" ++ dq
    ++ " data-js=" ++ dq ++ "ch-autoComplete-complete-query" ++ dq ++ "></i></li>";
    "<li aria-setsize=" ++ dq ++ "2" ++ dq ++ " aria-posinset=" ++ dq ++ "2" ++ dq
    ++ " class=" ++ dq ++ "ch-autoComplete-item" ++ dq
    ++ "><strong>ca</strong>r<i class=" ++ dq ++ "ch-icon-arrow-up" ++ dq
    ++ " data-js=" ++ dq ++ "ch-autoComplete-complete-query" ++ dq ++ "></i></li>" ].




(** ** Further notions *)

(** An occurrence of [lit], up to case, starts somewhere in [s]. *)
Definition occurs_in (lit s : string) : Prop :=
  exists before rest, s = before ++ rest /\ occurs_at_start lit rest.

Definition count_ready (log : list event) : nat :=
  List.length (filter (fun e => match e with Ready => true | _ => false end) log).

Definition count_show (log : list event) : nat :=
  List.length (filter (fun e => match e with Show => true | _ => false end) log).

(** Time does not run backwards in a step. *)
Definition forward (o : op) : Prop :=
  match o with
  | Wait dt => 0 <= dt
  | _ => True
  end.

(** A step other than disabling the widget. *)
Definition not_disabling (o : op) : Prop :=
  match o with
  | Disable => False
  | _ => True
  end.

(** A step that is neither enabling the widget nor a press in the popover. *)
Definition not_enabling_nor_pressing (o : op) : Prop :=
  match o with
  | Enable | MouseDown _ => False
  | _ => True
  end.

(** The positions of the rendered items followed by those of the extra
    items, [None] for an extra item without one. *)
Definition positions (w : widget) : list (option Z) :=
  (map (fun it => Some (aria_posinset it)) (list_items w)
   ++ map extra_posinset (extra_items w))%list.

(** The positions i + 1, i + 2, ... up to i + n. *)
Fixpoint count_from (i : Z) (n : nat) : list (option Z) :=
  match n with
  | O => []
  | S k => Some (i + 1) :: count_from (i + 1) k
  end.



(** The two states agree on everything but the rendered list, the extra
    items and the selected index. *)
Definition same_outside_selection (w w' : widget) : Prop :=
  _options w' = _options w /\ touch w' = touch w
  /\ _enabled w' = _enabled w /\ el_value w' = el_value w
  /\ el_focused w' = el_focused w /\ el_loading w' = el_loading w
  /\ keyinput_handlers w' = keyinput_handlers w
  /\ _popover w' = _popover w /\ _suggestions w' = _suggestions w
  /\ _originalQuery w' = _originalQuery w
  /\ _currentQuery w' = _currentQuery w
  /\ _suggestionsQuantity w' = _suggestionsQuantity w
  /\ _stopTyping w' = _stopTyping w /\ ready_timer w' = ready_timer w
  /\ clock w' = clock w /\ emitted w' = emitted w.

(** The two states agree on the clock, on the timeout of the constructor
    and on how often [ready] has been emitted. *)
Definition same_ready (w w' : widget) : Prop :=
  ready_timer w' = ready_timer w /\ clock w' = clock w
  /\ count_ready (emitted w') = count_ready (emitted w).

(** [ready] is still to come for a widget built at [start], or it has
    been emitted once. *)
Definition ready_state (start : Z) (w : widget) : Prop :=
  (ready_timer w = Some (start + 50) /\ count_ready (emitted w) = O
   /\ clock w < start + 50)
  \/ (ready_timer w = None /\ count_ready (emitted w) = 1%nat
      /\ start + 50 <= clock w).

(** The widget is enabled, and its popover is shown only while the input
    has the focus. *)
Definition shown_with_focus (w : widget) : Prop :=
  _enabled w = true /\ (isShown w = true -> el_focused w = true).

(** The widget is disabled, no keystroke handler is bound and no keystroke
    timeout is pending. *)
Definition deaf (w : widget) : Prop :=
  _enabled w = false /\ keyinput_handlers w = O /\ _stopTyping w = None.


(** The widget is enabled, at most one keystroke handler is bound, and
    none while the input is without the focus. *)
Definition bound_at_most_once (w : widget) : Prop :=
  _enabled w = true /\ (keyinput_handlers w <= 1)%nat
  /\ (el_focused w = false -> keyinput_handlers w = O).


(** ** Notions of the revised statements *)



(** The selected index as the commit handler of a press finds it: with
    touch the press has selected the element under it first. *)
Definition selected_at_press (t : target) (w : widget) : option Z :=
  if touch w
  then option_map (fun p => p - 1) (posinset_of t w)
  else _selected w.

(** The letters below 256 that have an upper case below 256, and those
    upper cases, in the same order: a to z, then the accented letters of
    Latin-1 without the division sign, the sharp s and the y with
    diaeresis. *)
Definition lower_letters : list nat :=
  [97; 98; 99; 100; 101; 102; 103; 104; 105; 106; 107; 108; 109; 110; 111;
   112; 113; 114; 115; 116; 117; 118; 119; 120; 121; 122;
   224; 225; 226; 227; 228; 229; 230; 231; 232; 233; 234; 235; 236; 237;
   238; 239; 240; 241; 242; 243; 244; 245; 246;
   248; 249; 250; 251; 252; 253; 254]%nat.

Definition upper_letters : list nat :=
  [65; 66; 67; 68; 69; 70; 71; 72; 73; 74; 75; 76; 77; 78; 79;
   80; 81; 82; 83; 84; 85; 86; 87; 88; 89; 90;
   192; 193; 194; 195; 196; 197; 198; 199; 200; 201; 202; 203; 204; 205;
   206; 207; 208; 209; 210; 211; 212; 213; 214;
   216; 217; 218; 219; 220; 221; 222]%nat.

Fixpoint lookup_letter (code : nat) (lower upper : list nat) : option nat :=
  match lower, upper with
  | l :: lower', u :: upper' =>
      if (code =? l)%nat then Some u else lookup_letter code lower' upper'
  | _, _ => None
  end.

(** The upper case of a character, read off the two tables; a character
    that is not in the first table is its own upper case. *)
Definition upper_of (c : ascii) : ascii :=
  match lookup_letter (nat_of_ascii c) lower_letters upper_letters with
  | Some u => ascii_of_nat u
  | None => c
  end.

(** The suggestions of the mixed-case example, its text being CA, and the
    contents of the items rendered for them. *)
Definition mixed_case_suggestions : list string :=
  ["Cat"; "scar"; "dog"; "CACAO"].

Definition mixed_case_contents : list string :=
  ["<strong>Ca</strong>t"; "s<strong>ca</strong>r"; "dog";
   "<strong>CA</strong><strong>CA</strong>O"].




Definition line_feed : string := String "010"%char EmptyString.

(** The sample widget after the page supplied one suggestion with a line
    feed in it, the pointer over its item. *)
Definition sample_two_lines : widget :=
  mouseover (ItemLi 0) (suggest ["ca" ++ line_feed ++ "r"] sample_widget).


(** * Properties *)

(** ** Escaping and matching *)

Section Escaping.

Lemma syntax_chars_escaped (c : ascii) :
  mem c syntax_chars = true -> mem c escaped_class = true.
Proof.
  destruct c as [[] [] [] [] [] [] [] []]; vm_compute; congruence.
Qed.

Lemma backslash_escaped : mem backslash escaped_class = true.
Proof. reflexivity. Qed.

Lemma plain_char (c : ascii) :
  mem c escaped_class = false ->
  Ascii.eqb c backslash = false /\ Ascii.eqb c ")"%char = false
  /\ mem c syntax_chars = false.
Proof.
  intros Hc. repeat split.
  - destruct (Ascii.eqb_spec c backslash) as [->|]; [|reflexivity].
    rewrite backslash_escaped in Hc. discriminate.
  - destruct (Ascii.eqb_spec c ")"%char) as [->|]; [|reflexivity].
    vm_compute in Hc. discriminate.
  - destruct (mem c syntax_chars) eqn:E; [|reflexivity].
    apply syntax_chars_escaped in E. congruence.
Qed.

(** The escaped text is empty exactly when the text is. *)
Lemma escapeRegExp_empty (s : string) :
  escapeRegExp s = EmptyString <-> s = EmptyString.
Proof.
  split.
  - destruct s as [|c rest]; [reflexivity|].
    simpl. destruct (mem c escaped_class); discriminate.
  - intros ->. reflexivity.
Qed.

Lemma group_body_escaped (s : string) :
  group_body (escapeRegExp s ++ ")") = Some s.
Proof.
  induction s as [|c rest IH]; [reflexivity|].
  cbn [escapeRegExp].
  destruct (mem c escaped_class) eqn:Hc.
  - cbn [append group_body]. rewrite Ascii.eqb_refl, Hc.
    fold (escapeRegExp rest ++ ")"). rewrite IH. reflexivity.
  - destruct (plain_char c Hc) as (Hb & Hp & Hs).
    cbn [append group_body]. rewrite Hb, Hp, Hs.
    fold (escapeRegExp rest ++ ")"). rewrite IH. reflexivity.
Qed.

(** The pattern [suggest] builds from a text matches that text and
    nothing else: escaping leaves no operator in it. *)
Lemma literal_of_escaped (s : string) :
  literal_of_source ("(" ++ escapeRegExp s ++ ")") = Some s.
Proof. cbn. apply group_body_escaped. Qed.

End Escaping.

(** ** Emphasis *)

Section Emphasis.

Lemma starts_with_split (lit s : string) :
  starts_with lit s = true ->
  s = take (String.length lit) s ++ drop (String.length lit) s
  /\ ci_equal lit (take (String.length lit) s) = true.
Proof.
  revert s. induction lit as [|a lit IH]; intros s H.
  - destruct s; split; reflexivity.
  - destruct s as [|b s]; [discriminate|].
    cbn in H. apply andb_true_iff in H as [Hc Hr].
    destruct (IH s Hr) as [Heq Hci]. cbn. split.
    + f_equal. exact Heq.
    + rewrite Hc. exact Hci.
Qed.

Lemma occurs_starts_with (lit s : string) :
  occurs_at_start lit s -> starts_with lit s = true.
Proof.
  intros (m & rest & -> & H). revert m H.
  induction lit as [|a lit IH]; intros m H; [reflexivity|].
  destruct m as [|b m]; [discriminate|].
  cbn in H. apply andb_true_iff in H as [Hc Hr].
  cbn. rewrite Hc. apply IH. exact Hr.
Qed.

Lemma drop_length (n : nat) (s : string) :
  (String.length (drop n s) <= String.length s)%nat.
Proof.
  revert s. induction n as [|n IH]; intros s; [destruct s; cbn; lia|].
  destruct s as [|c s]; cbn; [lia|]. specialize (IH s). lia.
Qed.

Lemma replace_loop_emphasised (lit : string) :
  lit <> EmptyString ->
  forall fuel s, (String.length s <= fuel)%nat ->
  Emphasised lit s (replace_loop fuel lit s).
Proof.
  intros Hlit. induction fuel as [|fuel IH]; intros s Hlen.
  - destruct s; [constructor|cbn in Hlen; lia].
  - destruct s as [|c rest]; [constructor|].
    cbn [replace_loop].
    destruct (starts_with lit (String c rest)) eqn:Hs.
    + destruct (starts_with_split _ _ Hs) as [Heq Hci].
      rewrite Heq at 1. apply Emph_match; [exact Hci|].
      apply IH.
      destruct lit as [|a lit]; [congruence|].
      cbn. pose proof (drop_length (String.length lit) rest).
      cbn in Hlen. lia.
    + apply Emph_skip.
      * intros Hocc. apply occurs_starts_with in Hocc. congruence.
      * apply IH. cbn in Hlen. lia.
Qed.

(** The replace call of [suggest] wraps the occurrences of the text the
    pattern was built from. *)
Lemma replace_strong_emphasised (q term : string) :
  q <> EmptyString ->
  Emphasised q term (replace_strong ("(" ++ escapeRegExp q ++ ")") term).
Proof.
  intros Hq. unfold replace_strong. rewrite literal_of_escaped.
  unfold replace_literal. destruct q as [|a q]; [congruence|].
  apply replace_loop_emphasised; [discriminate|lia].
Qed.

End Emphasis.

(** ** What [suggest] does *)

Section Suggest.

Lemma render_items_length raw source total i terms :
  List.length (render_items raw source total i terms) = List.length terms.
Proof.
  revert i. induction terms as [|t rest IH]; intros i; cbn; [reflexivity|].
  now rewrite IH.
Qed.

Lemma render_items_nth raw source total terms :
  forall i n term, nth_error terms n = Some term ->
  nth_error (render_items raw source total i terms) n
  = Some {| aria_setsize := total;
            aria_posinset := i + Z.of_nat n + 1;
            content := if raw then term else replace_strong source term;
            highlighted := false |}.
Proof.
  induction terms as [|t rest IH]; intros i n term H.
  - destruct n; discriminate.
  - destruct n as [|n].
    + cbn in H. injection H as ->. cbn. do 2 f_equal. lia.
    + cbn in H. cbn [render_items nth_error].
      rewrite (IH (i + 1) n term H). do 2 f_equal. lia.
Qed.

Lemma suggest_guard (suggestions : list string) (value : string) :
  suggestions <> [] -> value <> EmptyString ->
  (zlength suggestions =? 0) || String.eqb (escapeRegExp value) EmptyString
  = false.
Proof.
  intros Hl Hv. apply orb_false_iff. split.
  - apply Z.eqb_neq. destruct suggestions; [congruence|].
    unfold zlength. cbn [List.length]. lia.
  - apply String.eqb_neq. intros E. apply Hv. apply escapeRegExp_empty. exact E.
Qed.

Lemma suggest_guard_empty (suggestions : list string) (value : string) :
  suggestions = [] \/ escapeRegExp value = EmptyString ->
  (zlength suggestions =? 0) || String.eqb (escapeRegExp value) EmptyString
  = true.
Proof.
  intros [-> | ->]; [reflexivity|]. apply orb_true_r.
Qed.

(** The fields [suggest] leaves when it renders. *)
Lemma suggest_renders (w : widget) (suggestions : list string) :
  suggestions <> [] -> el_value w <> EmptyString ->
  let w' := suggest suggestions w in
  let total := if 0 <? zlength (extra_items w)
               then 0 + zlength (extra_items w) - 1
               else zlength suggestions in
  _suggestions w' = suggestions
  /\ _selected w' = None
  /\ list_items w'
     = render_items (html (_options w)) ("(" ++ escapeRegExp (el_value w) ++ ")")
         total 0 suggestions
  /\ extra_items w' = number_extras (zlength suggestions) 0 (extra_items w)
  /\ isShown w' = isShown w || el_focused w
  /\ emitted w'
     = (emitted w ++ (if negb (isShown w) && el_focused w then [Show] else []))%list
  /\ el_value w' = el_value w /\ el_focused w' = el_focused w
  /\ _options w' = _options w.
Proof.
  intros Hl Hv. unfold suggest.
  cbn [el_value set_el_loading]. rewrite (suggest_guard _ _ Hl Hv).
  destruct w as [o tch en v foc ld kh [sh] its exs sel sug oq cq qty st rt ck log].
  unfold isShown, Popover.isShown. cbn in *.
  destruct sh, foc; cbn; rewrite ?app_nil_r; repeat split; reflexivity.
Qed.

End Suggest.

(** ** The claims about [suggest] *)

(** C3: a call of [suggest] with an empty list, or while the escaped text
    of the input is empty, hides the popover and renders nothing: the
    popover is not shown afterwards, the list in the page and the stored
    suggestions are what they were, and no event is emitted. *)
Theorem suggest_nothing_to_render (w : widget) (suggestions : list string) :
  suggestions = [] \/ escapeRegExp (el_value w) = EmptyString ->
  let w' := suggest suggestions w in
  isShown w' = false
  /\ list_items w' = list_items w
  /\ innerHTML w' = innerHTML w
  /\ _suggestions w' = _suggestions w
  /\ emitted w' = emitted w.
Proof.
  intros H. unfold suggest. cbn [el_value set_el_loading].
  rewrite (suggest_guard_empty _ _ H).
  destruct w; repeat split; reflexivity.
Qed.

Lemma suggest_nothing_to_render_witness :
  escapeRegExp (el_value sample_suggested) <> EmptyString
  /\ isShown sample_suggested = true
  /\ isShown (suggest [] sample_suggested) = false
  /\ list_items (suggest [] sample_suggested) = list_items sample_suggested.
Proof.
  split; [discriminate|]. split; [reflexivity|].
  pose proof (suggest_nothing_to_render sample_suggested []
                (or_introl eq_refl)) as (H1 & H2 & _).
  split; [exact H1|exact H2].
Defined.

Lemma Canonicalize_table (c : ascii) : Canonicalize c = upper_of c.
Proof.
  destruct c as [[] [] [] [] [] [] [] []]; vm_compute; reflexivity.
Qed.

(** C5: with a non-empty list and a non-empty text in the input, [suggest]
    builds its pattern from the escaped text, which matches the text
    itself and nothing else; two characters match when they have the same
    upper case in the table of letters; it renders one item per
    suggestion, item i with the position label i + 1; the content of the
    item is the suggestion with every occurrence of the text, up to case,
    wrapped in strong markup, or the suggestion as it is when the html
    option is on.  For the suggestions cat and car and the text ca, both
    items have ca wrapped and carry the labels 1 and 2; for the text CA,
    Cat, scar and CACAO have their occurrences wrapped in the case they are
    written in, and dog is left as it is. *)
Theorem suggest_highlights_and_numbers :
  (forall (w : widget) (suggestions : list string),
      suggestions <> [] -> el_value w <> EmptyString ->
      let q := el_value w in
      let w' := suggest suggestions w in
      literal_of_source ("(" ++ escapeRegExp q ++ ")") = Some q
      /\ List.length (list_items w') = List.length suggestions
      /\ forall i term, nth_error suggestions i = Some term ->
           exists it, nth_error (list_items w') i = Some it
             /\ aria_posinset it = Z.of_nat i + 1
             /\ (html (_options w) = true -> content it = term)
             /\ (html (_options w) = false -> Emphasised q term (content it)))
  /\ (forall a b, same_char a b = Ascii.eqb (upper_of a) (upper_of b))
  /\ map (item_html _defaults)
         (list_items (suggest ["cat"; "car"] sample_widget))
     = sample_markup
  /\ map content
         (list_items (suggest mixed_case_suggestions
                        (set_el_value "CA" sample_widget)))
     = mixed_case_contents
  /\ map aria_posinset
         (list_items (suggest mixed_case_suggestions
                        (set_el_value "CA" sample_widget)))
     = [1; 2; 3; 4].
Proof.
  split; [|split; [|split; [|split]]]; try (vm_compute; reflexivity).
  - intros w suggestions Hl Hv q w'.
    destruct (suggest_renders w suggestions Hl Hv) as (_ & _ & Hitems & _).
    split; [apply literal_of_escaped|].
    subst w'. rewrite Hitems. split; [apply render_items_length|].
    intros i term Hi.
    eexists. split; [apply render_items_nth; exact Hi|].
    cbn. split; [lia|]. split; intros ->; [reflexivity|].
    apply replace_strong_emphasised. exact Hv.
  - intros a b. unfold same_char. now rewrite !Canonicalize_table.
Qed.

Lemma suggest_highlights_and_numbers_witness :
  exists it,
    nth_error (list_items (suggest ["Cat"; "car"] sample_widget)) 0 = Some it
    /\ aria_posinset it = 1
    /\ Emphasised "ca" "Cat" (content it)
    /\ content it = "<strong>Ca</strong>t".
Proof.
  destruct (proj2 (proj2 (proj1 suggest_highlights_and_numbers
                            sample_widget ["Cat"; "car"]
                            ltac:(discriminate) ltac:(discriminate)))
              0%nat "Cat" eq_refl) as (it & Hn & Hp & _ & He).
  exists it. split; [exact Hn|]. split; [exact Hp|].
  split; [exact (He eq_refl)|].
  vm_compute in Hn. injection Hn as <-. reflexivity.
Defined.

(** C7: a call of [suggest] with a non-empty list and a non-empty text in
    the input stores the new list in place of the old one, renders one
    item per new suggestion whatever was stored and rendered before, and
    sets the selected index to null. *)
Theorem suggest_replaces_suggestions (w : widget) (suggestions : list string) :
  suggestions <> [] -> el_value w <> EmptyString ->
  let w' := suggest suggestions w in
  _suggestions w' = suggestions
  /\ _selected w' = None
  /\ List.length (list_items w') = List.length suggestions
  /\ forall old_suggestions old_items,
       list_items (suggest suggestions
                     (set_list_items old_items
                        (set_suggestions old_suggestions w)))
       = list_items w'.
Proof.
  intros Hl Hv w'.
  destruct (suggest_renders w suggestions Hl Hv) as (Hs & Hsel & Hitems & _).
  subst w'. rewrite Hs, Hsel, Hitems, render_items_length.
  repeat split; try reflexivity.
  intros old_suggestions old_items.
  pose (w0 := set_list_items old_items (set_suggestions old_suggestions w)).
  assert (Hv0 : el_value w0 <> EmptyString) by (destruct w; exact Hv).
  destruct (suggest_renders w0 suggestions Hl Hv0) as (_ & _ & Hitems0 & _).
  fold w0. rewrite Hitems0. destruct w; reflexivity.
Qed.

Lemma suggest_replaces_suggestions_witness :
  _selected sample_highlighted = Some 1
  /\ _suggestions (suggest ["dog"] sample_highlighted) = ["dog"]
  /\ _selected (suggest ["dog"] sample_highlighted) = None.
Proof.
  split; [reflexivity|].
  assert (Hl : ["dog"] <> @nil string) by discriminate.
  assert (Hv : el_value sample_highlighted <> EmptyString) by discriminate.
  pose proof (suggest_replaces_suggestions sample_highlighted ["dog"] Hl Hv)
    as (H1 & H2 & _).
  split; [exact H1|exact H2].
Defined.

(** The items [suggest] renders, one by one. *)
Lemma suggest_renders_each (w : widget) (suggestions : list string) :
  suggestions <> [] -> el_value w <> EmptyString ->
  forall i term, nth_error suggestions i = Some term ->
  exists it, nth_error (list_items (suggest suggestions w)) i = Some it
    /\ aria_posinset it = Z.of_nat i + 1
    /\ (html (_options w) = true -> content it = term)
    /\ (html (_options w) = false ->
        Emphasised (el_value w) term (content it)).
Proof.
  intros Hl Hv i term Hi.
  destruct (suggest_renders w suggestions Hl Hv) as (_ & _ & Hitems & _).
  rewrite Hitems.
  eexists. split; [apply render_items_nth; exact Hi|].
  cbn. split; [lia|]. split; intros ->; [reflexivity|].
  apply replace_strong_emphasised. exact Hv.
Qed.

(** C10: a call of [suggest] with a non-empty list and a non-empty text in
    the input, while the popover is not shown, shows the popover exactly
    when the input is the active element, and then emits one [show]
    event; otherwise nothing is emitted and the popover stays hidden.  In
    both cases the suggestions are stored and rendered: there is one item
    per suggestion, item i with the position i + 1 and with the
    suggestion as its content, its occurrences of the text wrapped in
    strong markup unless the html option is on. *)
Theorem suggest_shows_when_focused (w : widget) (suggestions : list string) :
  suggestions <> [] -> el_value w <> EmptyString -> isShown w = false ->
  let w' := suggest suggestions w in
  (isShown w' = true <-> el_focused w = true)
  /\ (el_focused w = true -> emitted w' = (emitted w ++ [Show])%list)
  /\ (el_focused w = false -> emitted w' = emitted w /\ isShown w' = false)
  /\ _suggestions w' = suggestions
  /\ List.length (list_items w') = List.length suggestions
  /\ (forall i term, nth_error suggestions i = Some term ->
        exists it, nth_error (list_items w') i = Some it
          /\ aria_posinset it = Z.of_nat i + 1
          /\ (html (_options w) = true -> content it = term)
          /\ (html (_options w) = false ->
              Emphasised (el_value w) term (content it))).
Proof.
  intros Hl Hv Hsh w'.
  pose proof (suggest_renders_each w suggestions Hl Hv) as Heach.
  destruct (suggest_renders w suggestions Hl Hv)
    as (Hs & _ & Hitems & _ & Hshown & Hlog & _).
  subst w'. split; [|split; [|split; [|split; [|split]]]];
    try exact Heach;
    rewrite ?Hs, ?Hitems, ?Hshown, ?Hlog, ?Hsh, ?render_items_length;
    cbn; destruct (el_focused w); rewrite ?app_nil_r; repeat split;
    intros; try reflexivity; try discriminate; assumption.
Qed.

Lemma suggest_shows_when_focused_witness :
  isShown (suggest ["cat"] sample_widget) = true
  /\ isShown (suggest ["cat"] (AutoComplete _defaults false "ca" false 0))
     = false
  /\ exists it,
       nth_error
         (list_items (suggest ["Cat"] (AutoComplete _defaults false "ca" false 0)))
         0 = Some it
       /\ aria_posinset it = 1
       /\ content it = "<strong>Ca</strong>t".
Proof.
  split; [|split].
  - apply (proj1 (suggest_shows_when_focused sample_widget ["cat"]
                    ltac:(discriminate) ltac:(discriminate) eq_refl)).
    reflexivity.
  - apply (proj2 (proj1 (proj2 (proj2
             (suggest_shows_when_focused
                (AutoComplete _defaults false "ca" false 0) ["cat"]
                ltac:(discriminate) ltac:(discriminate) eq_refl)))
             eq_refl)).
  - destruct (proj2 (proj2 (proj2 (proj2 (proj2
                (suggest_shows_when_focused
                   (AutoComplete _defaults false "ca" false 0) ["Cat"]
                   ltac:(discriminate) ltac:(discriminate) eq_refl)))))
                0%nat "Cat" eq_refl) as (it & Hn & Hp & _).
    exists it. split; [exact Hn|]. split; [exact Hp|].
    vm_compute in Hn. injection Hn as <-. reflexivity.
Defined.

(** ** Disabling, leaving the input, committing *)

(** C8: when the widget is shown, the handler of [disable] hides the
    popover, emitting [hide], and takes the focus from the input.  This
    does not depend on the enabled flag the base class leaves, and it
    holds for [disable] as modelled. *)
Theorem disable_hides_and_blurs (w : widget) :
  isShown w = true ->
  (isShown (on_disable w) = false
   /\ el_focused (on_disable w) = false
   /\ In Hide (emitted (on_disable w)))
  /\ isShown (disable w) = false
  /\ el_focused (disable w) = false.
Proof.
  unfold disable, on_disable, isShown, Popover.isShown.
  destruct w as [o tch en v foc ld kh [sh] its exs sel sug oq cq qty st rt ck log].
  cbn. intros ->. cbn.
  destruct foc, en; cbn; repeat split; try reflexivity;
    apply in_or_app; right; left; reflexivity.
Qed.

Lemma disable_hides_and_blurs_witness :
  isShown sample_suggested = true
  /\ el_focused sample_suggested = true
  /\ isShown (disable sample_suggested) = false
  /\ el_focused (disable sample_suggested) = false.
Proof.
  split; [reflexivity|]. split; [reflexivity|].
  exact (proj2 (disable_hides_and_blurs sample_suggested eq_refl)).
Defined.

(** C6 as stated fails: the input was focused reading ca, the user typed
    cab and left; the input still reads cab, not the original ca. *)
Lemma blur_keeps_typed_text :
  let w := blur (keyinput "cab" sample_widget) in
  _originalQuery w = "ca" /\ el_value w = "cab"
  /\ el_value w <> _originalQuery w.
Proof. cbn. repeat split. discriminate. Qed.

(** C6, amended: the original query is captured when the input gains the
    focus on an enabled widget, and nothing restores it on blur: leaving
    the input keeps its text and the captured query as they are; on an
    enabled widget it hides the popover, emitting [hide], and unbinds the
    keystroke handlers. *)
Theorem blur_leaves_value (w : widget) :
  (el_focused w = false -> _enabled w = true ->
   _originalQuery (focus w) = el_value w)
  /\ el_value (blur w) = el_value w
  /\ _originalQuery (blur w) = _originalQuery w
  /\ (el_focused w = true -> _enabled w = true ->
      isShown (blur w) = false
      /\ keyinput_handlers (blur w) = O
      /\ emitted (blur w) = (emitted w ++ [Hide])%list).
Proof.
  unfold focus, blur, el_blur, on_focus, on_blur, isShown.
  destruct w as [o tch en v foc ld kh [sh] its exs sel sug oq cq qty st rt ck log].
  cbn. destruct foc, en; cbn; repeat split; intros; try reflexivity;
    discriminate.
Qed.

Lemma blur_leaves_value_witness :
  _originalQuery sample_widget = "ca"
  /\ el_value (blur (keyinput "cab" sample_widget)) = "cab"
  /\ isShown (blur (keyinput "cab" sample_suggested)) = false.
Proof.
  split.
  - exact (proj1 (blur_leaves_value (AutoComplete _defaults false "ca" false 0))
             eq_refl eq_refl).
  - split.
    + exact (proj1 (proj2 (blur_leaves_value (keyinput "cab" sample_widget)))).
    + exact (proj1 (proj2 (proj2 (proj2
               (blur_leaves_value (keyinput "cab" sample_suggested))))
               eq_refl eq_refl)).
Defined.

Section Commit.

Lemma suggestion_at_nth (l : list string) (k : Z) (s : string) :
  0 <= k -> nth_error l (Z.to_nat k) = Some s ->
  suggestion_at l (Some k) = s.
Proof.
  intros Hk Hn. unfold suggestion_at.
  destruct (0 <=? k) eqn:E; [|apply Z.leb_gt in E; lia].
  apply nth_error_nth. exact Hn.
Qed.

(** What [_select] leaves of the widget. *)
Lemma _select_fields (t : target) (w : widget) :
  let w' := _select t w in
  _selected w' = option_map (fun p => p - 1) (posinset_of t w)
  /\ _suggestions w' = _suggestions w
  /\ List.length (list_items w') = List.length (list_items w)
  /\ map aria_posinset (list_items w') = map aria_posinset (list_items w)
  /\ map extra_posinset (extra_items w') = map extra_posinset (extra_items w)
  /\ emitted w' = emitted w /\ el_value w' = el_value w
  /\ el_focused w' = el_focused w /\ _enabled w' = _enabled w
  /\ _options w' = _options w /\ touch w' = touch w.
Proof.
  unfold _select, _toogleHighlighted.
  destruct (posinset_of t w) as [p|]; destruct w; cbn;
    rewrite length_map, !map_map; cbn;
    repeat split; try reflexivity;
    try (apply map_ext; intros [[?|] ?]; reflexivity).
Qed.

Lemma commit_on_item (w : widget) (t : target) (k : Z) (s : string) :
  _selected w = Some k -> 0 <= k ->
  nth_error (_suggestions w) (Z.to_nat k) = Some s ->
  is_item t || parent_is_item t = true ->
  is_icon t && negb (html (_options w)) = false ->
  let w' := on_pointerdown t w in
  el_value w' = (if html (_options w) then el_value w else strip_line_breaks s)
  /\ emitted w'
     = (emitted w ++ Select :: (if el_focused w && _enabled w then [Hide] else []))%list
  /\ count_select (emitted w') = S (count_select (emitted w))
  /\ el_focused w' = false.
Proof.
  intros Hsel Hk Hn Ht Hi w'. subst w'.
  pose proof (suggestion_at_nth _ _ _ Hk Hn) as Hs. rewrite <- Hsel in Hs.
  unfold on_pointerdown. rewrite Hi, Ht.
  unfold _setQuery, el_blur, on_blur, hide, assign_value.
  destruct w as [o tch en v foc ld kh [sh] its exs sel sug oq cq qty st rt ck log].
  cbn -[suggestion_at strip_line_breaks] in *. rewrite Hsel, <- Hsel, Hs.
  destruct (html o), foc, en; cbn -[strip_line_breaks];
    rewrite <- ?app_assoc; cbn -[strip_line_breaks];
    repeat split; try reflexivity;
    unfold count_select; rewrite ?filter_app, ?length_app; cbn; lia.
Qed.

Lemma commit_on_icon (w : widget) (t : target) (k : Z) (s : string) :
  _selected w = Some k -> 0 <= k ->
  nth_error (_suggestions w) (Z.to_nat k) = Some s ->
  is_icon t = true -> html (_options w) = false ->
  let w' := on_pointerdown t w in
  el_value w' = strip_line_breaks s
  /\ emitted w' = (emitted w ++ [Typing (strip_line_breaks s)])%list
  /\ count_select (emitted w') = count_select (emitted w)
  /\ el_focused w' = el_focused w.
Proof.
  intros Hsel Hk Hn Ht Hh w'. subst w'.
  pose proof (suggestion_at_nth _ _ _ Hk Hn) as Hs. rewrite <- Hsel in Hs.
  unfold on_pointerdown, assign_value. rewrite Ht, Hh. cbn [andb negb].
  destruct w as [o tch en v foc ld kh [sh] its exs sel sug oq cq qty st rt ck log].
  cbn -[suggestion_at strip_line_breaks] in *. rewrite Hs.
  destruct en; cbn -[strip_line_breaks]; repeat split; try reflexivity;
    unfold count_select; rewrite ?filter_app, ?length_app; cbn; lia.
Qed.

Lemma hover_then_press (w : widget) (i : nat) :
  (i < List.length (list_items w))%nat ->
  mousedown (ItemLi i) (mouseover (ItemLi i) w)
  = on_pointerdown (ItemLi i) (_select (ItemLi i) w).
Proof.
  intros Hi. apply Nat.ltb_lt in Hi.
  unfold mousedown, mouseover, locate.
  destruct (touch w) eqn:Ht.
  - cbn [present]. rewrite Hi, Ht. reflexivity.
  - cbn [present]. rewrite Hi.
    destruct (_select_fields (ItemLi i) w)
      as (_ & _ & Hlen & _ & _ & _ & _ & _ & _ & _ & Htouch).
    rewrite Hlen, Hi, Htouch, Ht. reflexivity.
Qed.

(** The state in which the commit handler of a press runs. *)
Lemma press_reaches_commit (w : widget) (t : target) :
  present t w = true ->
  let w1 := if touch w then _select t w else w in
  mousedown t w = on_pointerdown t w1
  /\ _selected w1 = selected_at_press t w
  /\ _suggestions w1 = _suggestions w /\ emitted w1 = emitted w
  /\ el_value w1 = el_value w /\ el_focused w1 = el_focused w
  /\ _options w1 = _options w.
Proof.
  intros Hp. unfold mousedown, locate, selected_at_press. rewrite Hp.
  destruct (touch w); [|repeat split].
  destruct (_select_fields t w)
    as (Hsel & Hsug & _ & _ & _ & Hlog & Hval & Hfoc & _ & Hopt & _).
  repeat split; assumption.
Qed.

End Commit.

(** C1 as stated fails: with the second item highlighted, a press on its
    completion icon writes the suggestion into the input, but it emits
    [typing], not [select], and the input keeps the focus. *)
Lemma icon_press_emits_no_select :
  let w := mousedown (ItemIcon 1) sample_highlighted in
  el_focused sample_highlighted = true
  /\ emitted w = [Show; Typing "car"]
  /\ ~ (el_value w = "car"
        /\ count_select (emitted w)
           = S (count_select (emitted sample_highlighted))
        /\ el_focused w = false).
Proof.
  cbn. repeat split. intros (_ & _ & H). discriminate.
Qed.

(** C1, amended.  The commit handler of a press takes the selected index
    as it stands when it runs: the highlighted one on a device without
    touch, that of the pressed element with touch, where the press
    selects first.  Let that index be a position k into the suggestions.
    A press on a rendered item, on an element directly inside it or, with
    the html option, on its icon emits exactly one [select] event and
    takes the focus from the input; it writes suggestion k into the input,
    which keeps it without its line breaks, unless the html option is on.
    Without the html option a press on the completion icon writes
    suggestion k into the input and emits one [typing] event with the text
    the input kept, no [select], and leaves the focus where it is.
    Highlighting and then pressing the item at position i + 1 writes
    suggestion i into the input, emits exactly one [select] event and
    takes the focus from the input. *)
Theorem commit_copies_and_emits :
  (forall w t k s,
      present t w = true ->
      selected_at_press t w = Some k -> 0 <= k ->
      nth_error (_suggestions w) (Z.to_nat k) = Some s ->
      is_item t || parent_is_item t = true ->
      is_icon t && negb (html (_options w)) = false ->
      let w' := mousedown t w in
      el_value w'
      = (if html (_options w) then el_value w else strip_line_breaks s)
      /\ count_select (emitted w') = S (count_select (emitted w))
      /\ el_focused w' = false)
  /\ (forall w t k s,
      present t w = true ->
      selected_at_press t w = Some k -> 0 <= k ->
      nth_error (_suggestions w) (Z.to_nat k) = Some s ->
      is_icon t = true -> html (_options w) = false ->
      let w' := mousedown t w in
      el_value w' = strip_line_breaks s
      /\ emitted w' = (emitted w ++ [Typing (strip_line_breaks s)])%list
      /\ el_focused w' = el_focused w)
  /\ (forall w i s,
      items_numbered w ->
      nth_error (_suggestions w) i = Some s ->
      html (_options w) = false ->
      let w' := mousedown (ItemLi i) (mouseover (ItemLi i) w) in
      el_value w' = strip_line_breaks s
      /\ count_select (emitted w') = S (count_select (emitted w))
      /\ el_focused w' = false).
Proof.
  split; [|split].
  - intros w t k s Hp Hsel Hk Hn Ht Hi.
    destruct (press_reaches_commit w t Hp)
      as (-> & Hsel1 & Hsug & Hlog & Hval & _ & Hopt).
    rewrite <- Hsel1 in Hsel. rewrite <- Hsug in Hn. rewrite <- Hopt in Hi.
    destruct (commit_on_item _ t k s Hsel Hk Hn Ht Hi) as (H1 & _ & H3 & H4).
    rewrite Hopt, Hval in H1. rewrite Hlog in H3. auto.
  - intros w t k s Hp Hsel Hk Hn Ht Hh.
    destruct (press_reaches_commit w t Hp)
      as (-> & Hsel1 & Hsug & Hlog & _ & Hfoc & Hopt).
    rewrite <- Hsel1 in Hsel. rewrite <- Hsug in Hn. rewrite <- Hopt in Hh.
    destruct (commit_on_icon _ t k s Hsel Hk Hn Ht Hh) as (H1 & H2 & _ & H4).
    rewrite Hlog in H2. rewrite Hfoc in H4. auto.
  - intros w i s [Hlen Hnum] Hn Hh.
    assert (Hi : (i < List.length (list_items w))%nat).
    { rewrite Hlen. apply nth_error_Some. congruence. }
    rewrite (hover_then_press w i Hi).
    destruct (nth_error (list_items w) i) as [it|] eqn:Hit;
      [|apply nth_error_None in Hit; lia].
    destruct (_select_fields (ItemLi i) w)
      as (Hsel & Hsug & _ & _ & _ & Hlog & Hval & _ & _ & Hopt & _).
    unfold posinset_of in Hsel. cbn [own_position li_position] in Hsel.
    rewrite Hit in Hsel. cbn in Hsel.
    rewrite (Hnum i it Hit) in Hsel.
    assert (Hn' : nth_error (_suggestions (_select (ItemLi i) w))
                    (Z.to_nat (Z.of_nat i + 1 - 1)) = Some s).
    { rewrite Hsug. replace (Z.to_nat (Z.of_nat i + 1 - 1)) with i by lia.
      exact Hn. }
    destruct (commit_on_item (_select (ItemLi i) w) (ItemLi i) _ s Hsel
                ltac:(lia) Hn' eq_refl eq_refl) as (H1 & _ & H3 & H4).
    rewrite Hopt, Hh in H1. rewrite Hlog in H3. auto.
Qed.

Lemma commit_copies_and_emits_witness :
  el_value (mousedown (ItemLi 1) sample_highlighted) = "car"
  /\ el_value (mousedown (ItemLi 0) sample_two_lines) = "car"
  /\ el_value (mousedown (ItemIcon 0) sample_highlighted) = "car"
  /\ el_focused (mousedown (ItemLi 0) (mouseover (ItemLi 0) sample_suggested))
     = false.
Proof.
  split; [|split; [|split]].
  - exact (proj1 (proj1 commit_copies_and_emits
             sample_highlighted (ItemLi 1) 1 "car"
             eq_refl eq_refl ltac:(lia) eq_refl eq_refl eq_refl)).
  - exact (proj1 (proj1 commit_copies_and_emits
             sample_two_lines (ItemLi 0) 0 ("ca" ++ line_feed ++ "r")
             eq_refl eq_refl ltac:(lia) eq_refl eq_refl eq_refl)).
  - exact (proj1 (proj1 (proj2 commit_copies_and_emits)
             sample_highlighted (ItemIcon 0) 1 "car"
             eq_refl eq_refl ltac:(lia) eq_refl eq_refl eq_refl)).
  - refine (proj2 (proj2 (proj2 (proj2 commit_copies_and_emits)
             sample_suggested 0%nat "cat" _ eq_refl eq_refl))).
    split; [reflexivity|].
    intros [|[|[|i]]] it H; cbn in H; try discriminate;
      injection H as <-; reflexivity.
Defined.

(** ** The keystroke timer *)

Section Debounce.

Lemma typing_events_app (a b : list event) :
  typing_events (a ++ b) = (typing_events a ++ typing_events b)%list.
Proof.
  induction a as [|e a IH]; [reflexivity|].
  destruct e; cbn; rewrite IH; reflexivity.
Qed.

Lemma last_cons {A} (x d : A) (l : list A) :
  last (x :: l) d = last l x.
Proof.
  revert x d. induction l as [|y l IH]; intros x d; [reflexivity|].
  change (last (y :: l) d = last (y :: l) x).
  rewrite (IH y d), (IH y x). reflexivity.
Qed.

Lemma on_keyinput_twice (w : widget) :
  on_keyinput (on_keyinput w) = on_keyinput w.
Proof. destruct w; reflexivity. Qed.

Lemma repeat_on_keyinput (n : nat) (w : widget) :
  repeat_handler (S n) on_keyinput w = on_keyinput w.
Proof.
  revert w. induction n as [|n IH]; intros w; [reflexivity|].
  change (repeat_handler (S n) on_keyinput (on_keyinput w) = on_keyinput w).
  rewrite IH. apply on_keyinput_twice.
Qed.

(** With a handler bound, a keystroke starts the timeout anew. *)
Lemma keyinput_restarts (value : string) (w : widget) :
  keyinput_handlers w <> O ->
  let w' := keyinput value w in
  _stopTyping w' = Some (clock w' + 400)
  /\ el_value w' = value
  /\ clock w' = clock w
  /\ keyinput_handlers w' = keyinput_handlers w
  /\ emitted w' = emitted w.
Proof.
  intros Hb w'. subst w'. unfold keyinput.
  destruct w as [o tch en v foc ld kh [sh] its exs sel sug oq cq qty st rt ck log].
  cbn in *. destruct kh as [|kh]; [congruence|].
  rewrite repeat_on_keyinput. cbn. repeat split; reflexivity.
Qed.

(** Time that passes short of the pending timeout emits no [typing]. *)
Lemma advance_before (dt d : Z) (w : widget) :
  _stopTyping w = Some d -> clock w + dt < d ->
  let w' := advance dt w in
  typing_events (emitted w') = typing_events (emitted w)
  /\ _stopTyping w' = Some d
  /\ el_value w' = el_value w
  /\ keyinput_handlers w' = keyinput_handlers w
  /\ clock w' = clock w + dt.
Proof.
  intros Hst Hlt w'. subst w'. unfold advance, run_until.
  rewrite Hst. cbn [due].
  destruct (Z.leb_spec d (clock w + dt)) as [Hle|_]; [lia|].
  destruct w as [o tch en v foc ld kh [sh] its exs sel sug oq cq qty st rt ck log].
  cbn in *. destruct (due (ck + dt) rt); cbn;
    rewrite ?typing_events_app, ?app_nil_r; repeat split; auto.
Qed.

(** Time that reaches the pending timeout emits one [typing] with the
    text in the input. *)
Lemma advance_after (dt d : Z) (w : widget) :
  _stopTyping w = Some d -> d <= clock w + dt ->
  let w' := advance dt w in
  typing_events (emitted w')
  = (typing_events (emitted w) ++ [el_value w])%list
  /\ _stopTyping w' = None
  /\ el_value w' = el_value w.
Proof.
  intros Hst Hle w'. subst w'. unfold advance, run_until.
  rewrite Hst. cbn [due].
  destruct (Z.leb_spec d (clock w + dt)) as [_|Hlt]; [|lia].
  destruct w as [o tch en v foc ld kh [sh] its exs sel sug oq cq qty st rt ck log].
  cbn in *. subst st.
  destruct rt as [r|]; cbn;
    [destruct (r <=? ck + dt); [destruct (d <? r)|]|];
    destruct en; cbn; rewrite ?typing_events_app; cbn;
    rewrite ?app_nil_r; repeat split; reflexivity.
Qed.

Lemma burst_keeps_timer_pending (keys : list (Z * string)) :
  Forall (fun key => 0 <= fst key < 400) keys ->
  forall (w : widget) (v : string),
  keyinput_handlers w <> O ->
  _stopTyping w = Some (clock w + 400) ->
  el_value w = v ->
  let w' := type_keys keys w in
  keyinput_handlers w' <> O
  /\ _stopTyping w' = Some (clock w' + 400)
  /\ el_value w' = last (map snd keys) v
  /\ typing_events (emitted w') = typing_events (emitted w).
Proof.
  induction 1 as [|[gap value] keys Hgap _ IH]; intros w v Hb Hst Hv.
  - cbn. auto.
  - cbn [type_keys]. cbn [fst] in Hgap.
    destruct (advance_before gap _ w Hst ltac:(lia))
      as (Hlog & _ & _ & Hkh & _).
    assert (Hb' : keyinput_handlers (advance gap w) <> O) by congruence.
    destruct (keyinput_restarts value (advance gap w) Hb')
      as (Hst2 & Hv2 & _ & Hkh2 & Hlog2).
    destruct (IH (keyinput value (advance gap w)) value
                ltac:(congruence) Hst2 Hv2) as (H1 & H2 & H3 & H4).
    split; [exact H1|]. split; [exact H2|]. split.
    + rewrite H3. cbn [map snd]. symmetry. apply last_cons.
    + rewrite H4, Hlog2, Hlog. reflexivity.
Qed.

End Debounce.

(** A burst on a widget whose keystroke handler is bound. *)
Lemma burst_emits_one_typing (w : widget) (value : string)
    (keys : list (Z * string)) :
  keyinput_handlers w <> O ->
  Forall (fun key => 0 <= fst key < 400) keys ->
  let w' := type_keys keys (keyinput value w) in
  let final := last (map snd keys) value in
  _stopTyping w' = Some (clock w' + 400)
  /\ el_value w' = final
  /\ typing_events (emitted w') = typing_events (emitted w)
  /\ (forall dt, 0 <= dt < 400 ->
        typing_events (emitted (advance dt w')) = typing_events (emitted w))
  /\ (forall dt, 400 <= dt ->
        typing_events (emitted (advance dt w'))
        = (typing_events (emitted w) ++ [final])%list).
Proof.
  intros Hb Hkeys w' final.
  destruct (keyinput_restarts value w Hb) as (Hst & Hv & _ & Hkh & Hlog).
  destruct (burst_keeps_timer_pending keys Hkeys (keyinput value w) value
              ltac:(congruence) Hst Hv) as (_ & Hst' & Hv' & Hlog').
  fold w' in Hst', Hv', Hlog'. fold final in Hv'.
  rewrite Hlog in Hlog'.
  split; [exact Hst'|]. split; [exact Hv'|]. split; [exact Hlog'|]. split.
  - intros dt Hdt.
    destruct (advance_before dt _ w' Hst' ltac:(lia)) as (H & _).
    rewrite H. exact Hlog'.
  - intros dt Hdt.
    destruct (advance_after dt _ w' Hst' ltac:(lia)) as (H & _).
    rewrite H, Hlog', Hv'. reflexivity.
Qed.

(** C2 as stated fails: the input gained the focus while the widget was
    disabled, so no keystroke handler was bound, and the widget was
    enabled afterwards; a burst of two keystrokes then emits no [typing]
    event, however long one waits.  The same holds for a widget built on
    an input that has the focus already. *)
Lemma unbound_burst_emits_no_typing :
  let w := run_all [Disable; Focus; Enable]
             (AutoComplete _defaults false "ca" false 0) in
  let w' := AutoComplete _defaults false "ca" true 0 in
  _enabled w = true /\ el_focused w = true /\ keyinput_handlers w = O
  /\ typing_events
       (emitted (advance 400 (type_keys [(100, "cab")] (keyinput "ca" w))))
     = []
  /\ typing_events
       (emitted (advance 400 (type_keys [(100, "cab")] (keyinput "ca" w'))))
     = []
  /\ typing_events
       (emitted (advance 400 (type_keys [(100, "cab")] (keyinput "ca" w))))
     <> ["cab"].
Proof. vm_compute. repeat split. discriminate. Qed.

(** C2, amended.  The keystroke handler is bound when the input gains the
    focus on an enabled widget.  On a widget whose keystroke handler is
    bound, take a keystroke and after it any burst of keystrokes, each
    less than 400 after the one before.  The timeout pending at the end of
    the burst is the one of the last keystroke, due 400 later; no [typing]
    event is emitted during the burst nor in the time short of 400 after
    it; once 400 have passed exactly one [typing] event has been emitted,
    and it carries the text that the last keystroke left in the input.
    While no keystroke handler is bound a keystroke starts no timeout and
    emits nothing. *)
Theorem bound_burst_emits_one_typing :
  (forall w, _enabled w = true -> el_focused w = false ->
             keyinput_handlers (focus w) <> O)
  /\ (forall w value keys,
      keyinput_handlers w <> O ->
      Forall (fun key => 0 <= fst key < 400) keys ->
      let w' := type_keys keys (keyinput value w) in
      let final := last (map snd keys) value in
      _stopTyping w' = Some (clock w' + 400)
      /\ el_value w' = final
      /\ typing_events (emitted w') = typing_events (emitted w)
      /\ (forall dt, 0 <= dt < 400 ->
            typing_events (emitted (advance dt w')) = typing_events (emitted w))
      /\ (forall dt, 400 <= dt ->
            typing_events (emitted (advance dt w'))
            = (typing_events (emitted w) ++ [final])%list))
  /\ (forall w value,
      keyinput_handlers w = O ->
      _stopTyping (keyinput value w) = _stopTyping w
      /\ emitted (keyinput value w) = emitted w).
Proof.
  split; [|split].
  - intros w He Hf. unfold focus, on_focus. rewrite Hf.
    destruct w; cbn in *. rewrite He. discriminate.
  - exact burst_emits_one_typing.
  - intros w value H0. unfold keyinput. destruct w; cbn in *.
    rewrite H0. split; reflexivity.
Qed.

Lemma bound_burst_emits_one_typing_witness :
  keyinput_handlers sample_widget <> O
  /\ typing_events
       (emitted (advance 400
          (type_keys [(100, "cab"); (399, "cabi")] (keyinput "ca" sample_widget))))
     = ["cabi"].
Proof.
  split.
  - exact (proj1 bound_burst_emits_one_typing
             (AutoComplete _defaults false "ca" false 0) eq_refl eq_refl).
  - refine (proj2 (proj2 (proj2 (proj2
              (proj1 (proj2 bound_burst_emits_one_typing) sample_widget "ca"
                 [(100, "cab"); (399, "cabi")] _ _))))
              400 _).
    + discriminate.
    + repeat constructor; cbn; lia.
    + lia.
Defined.

(** C9 fails on the code: the widget is configured with a keystroke delay
    of 100, the user types a at time 0; nothing has been emitted after 100
    nor after 399, and [typing] is emitted after 400 whatever the option
    says. *)
Theorem configured_delay_is_not_used :
  let w := keyinput "a"
             (focus (AutoComplete (with_keystrokesTime 100 _defaults)
                       false EmptyString false 0)) in
  keystrokesTime (_options w) = 100
  /\ _stopTyping w = Some 400
  /\ typing_events (emitted (advance 100 w)) = []
  /\ typing_events (emitted (advance 399 w)) = []
  /\ typing_events (emitted (advance 400 w)) = ["a"].
Proof. cbn. repeat split. Qed.

(** ** The selected index *)

Section Selection.















End Selection.

Section Invariance.


Lemma number_extras_length len index extras :
  List.length (number_extras len index extras) = List.length extras.
Proof.
  revert index. induction extras as [|e rest IH]; intros index; cbn;
    [reflexivity|]. now rewrite IH.
Qed.












End Invariance.


(** The invariant fails in a second way: a suggestion goes into the
    list unescaped, and a hover over an element of its markup that carries
    an aria-posinset of its own selects that position less one, here
    index 6 of two suggestions. *)
Lemma own_position_selected_out_of_range :
  let w := run (MouseOver (ItemChild 0 (Some 7))) sample_suggested in
  _suggestions w = ["cat"; "car"] /\ extra_items w = []
  /\ _selected w = Some 6 /\ ~ selected_valid w.
Proof.
  intros w.
  assert (Hsel : _selected w = Some 6) by (vm_compute; reflexivity).
  assert (Hsug : _suggestions w = ["cat"; "car"]) by (vm_compute; reflexivity).
  split; [exact Hsug|]. split; [vm_compute; reflexivity|].
  split; [exact Hsel|].
  intros H. specialize (H 6 Hsel). rewrite Hsug in H.
  unfold zlength in H. cbn in H. lia.
Qed.



(** * Further properties of the code *)

(** ** Matching and emphasis *)

Section Matching.

Lemma length_append (a b : string) :
  String.length (a ++ b) = (String.length a + String.length b)%nat.
Proof. induction a as [|c a IH]; cbn; [reflexivity|now rewrite IH]. Qed.

Lemma ci_equal_length (a b : string) :
  ci_equal a b = true -> String.length a = String.length b.
Proof.
  revert b. induction a as [|x a IH]; intros [|y b] H; try discriminate;
    [reflexivity|].
  cbn in H. apply andb_true_iff in H as [_ H]. cbn. f_equal. apply IH, H.
Qed.

Lemma starts_with_ci (a b s : string) :
  ci_equal a b = true -> starts_with a s = starts_with b s.
Proof.
  revert b s. induction a as [|x a IH]; intros [|y b] s H; try discriminate;
    [reflexivity|].
  cbn in H. apply andb_true_iff in H as [Hxy H].
  destruct s as [|c s]; [reflexivity|]. cbn.
  rewrite (IH b s H). f_equal. unfold same_char in *.
  apply Ascii.eqb_eq in Hxy. rewrite Hxy. reflexivity.
Qed.

Lemma replace_loop_ci (a b : string) :
  ci_equal a b = true ->
  forall fuel s, replace_loop fuel a s = replace_loop fuel b s.
Proof.
  intros H. induction fuel as [|fuel IH]; intros s; [reflexivity|].
  destruct s as [|c rest]; [reflexivity|]. cbn [replace_loop].
  rewrite (starts_with_ci a b _ H), (ci_equal_length a b H), !IH.
  reflexivity.
Qed.

Lemma replace_literal_ci (a b s : string) :
  ci_equal a b = true -> replace_literal a s = replace_literal b s.
Proof.
  intros H. destruct a as [|x a], b as [|y b]; try discriminate;
    [reflexivity|].
  apply replace_loop_ci, H.
Qed.

Lemma replace_loop_length (lit : string) :
  forall fuel s,
  (String.length s <= String.length (replace_loop fuel lit s))%nat.
Proof.
  induction fuel as [|fuel IH]; intros s; [cbn; lia|].
  destruct s as [|c rest]; [cbn; lia|]. cbn [replace_loop].
  destruct (starts_with lit (String c rest)) eqn:Hs.
  - destruct (starts_with_split _ _ Hs) as [Heq _].
    rewrite Heq at 1. rewrite !length_append.
    specialize (IH (drop (String.length lit) (String c rest))). lia.
  - cbn. specialize (IH rest). lia.
Qed.

Lemma replace_loop_grows (lit : string) :
  forall before fuel rest,
  (String.length (before ++ rest) <= fuel)%nat ->
  rest <> EmptyString ->
  starts_with lit rest = true ->
  (String.length (before ++ rest)
   < String.length (replace_loop fuel lit (before ++ rest)))%nat.
Proof.
  assert (Hhit : forall fuel s, s <> EmptyString ->
            starts_with lit s = true ->
            (String.length s < String.length (replace_loop (S fuel) lit s))%nat).
  { intros fuel s Hne Hs. destruct s as [|c s]; [congruence|].
    cbn [replace_loop]. rewrite Hs.
    destruct (starts_with_split _ _ Hs) as [Heq _].
    rewrite Heq at 1. rewrite !length_append.
    pose proof (replace_loop_length lit fuel
                  (drop (String.length lit) (String c s))).
    cbn [strong_open strong_close String.length]. lia. }
  induction before as [|c before IH]; intros fuel rest Hlen Hne Hs.
  - cbn [append] in *. destruct fuel as [|fuel].
    + destruct rest; [congruence|cbn in Hlen; lia].
    + apply Hhit; assumption.
  - destruct fuel as [|fuel]; [cbn in Hlen; lia|].
    destruct (starts_with lit (String c before ++ rest)) eqn:Hc.
    + apply Hhit; [discriminate|exact Hc].
    + cbn [append] in *. cbn [replace_loop]. rewrite Hc. cbn [String.length].
      cbn [String.length] in Hlen.
      specialize (IH fuel rest ltac:(lia) Hne Hs). lia.
Qed.

Lemma replace_loop_unmatched (lit : string) :
  forall fuel s,
  (forall before rest, s = before ++ rest -> starts_with lit rest = false) ->
  replace_loop fuel lit s = s.
Proof.
  induction fuel as [|fuel IH]; intros s H; [reflexivity|].
  destruct s as [|c rest]; [reflexivity|]. cbn [replace_loop].
  rewrite (H EmptyString (String c rest) eq_refl). f_equal.
  apply IH. intros before rest' ->.
  apply (H (String c before) rest'). reflexivity.
Qed.

Lemma starts_with_occurs (lit s : string) :
  starts_with lit s = true -> occurs_at_start lit s.
Proof.
  intros H. destruct (starts_with_split _ _ H) as [Heq Hci].
  exists (take (String.length lit) s), (drop (String.length lit) s).
  split; assumption.
Qed.

End Matching.

(** X1: the case of the text in the input does not matter to what is
    rendered: two texts that agree up to case give the same emphasis in
    every suggestion, and the same list of items. *)
Theorem query_case_is_irrelevant (q q' : string) :
  ci_equal q q' = true ->
  (forall term,
      replace_strong ("(" ++ escapeRegExp q ++ ")") term
      = replace_strong ("(" ++ escapeRegExp q' ++ ")") term)
  /\ forall w suggestions,
      list_items (suggest suggestions (set_el_value q w))
      = list_items (suggest suggestions (set_el_value q' w)).
Proof.
  intros H.
  assert (Hr : forall term,
             replace_strong ("(" ++ escapeRegExp q ++ ")") term
             = replace_strong ("(" ++ escapeRegExp q' ++ ")") term).
  { intros term. unfold replace_strong. rewrite !literal_of_escaped.
    apply replace_literal_ci, H. }
  split; [exact Hr|]. intros w suggestions.
  assert (Hrender : forall raw total terms i,
             render_items raw ("(" ++ escapeRegExp q ++ ")") total i terms
             = render_items raw ("(" ++ escapeRegExp q' ++ ")") total i terms).
  { intros raw total terms. induction terms as [|t rest IH]; intros i;
      [reflexivity|]. cbn [render_items]. rewrite IH, Hr. reflexivity. }
  destruct suggestions as [|s0 rest].
  { destruct w; reflexivity. }
  destruct q as [|x q], q' as [|y q']; try discriminate.
  { destruct w; reflexivity. }
  destruct (suggest_renders (set_el_value (String x q) w) (s0 :: rest))
    as (_ & _ & -> & _); [discriminate|destruct w; discriminate|].
  destruct (suggest_renders (set_el_value (String y q') w) (s0 :: rest))
    as (_ & _ & -> & _); [discriminate|destruct w; discriminate|].
  destruct w; cbn [_options el_value extra_items set_el_value].
  apply Hrender.
Qed.

Lemma query_case_is_irrelevant_witness :
  list_items (suggest ["Cat"; "car"] (set_el_value "CA" sample_widget))
  = list_items (suggest ["Cat"; "car"] (set_el_value "ca" sample_widget)).
Proof.
  exact (proj2 (query_case_is_irrelevant "CA" "ca" eq_refl)
           sample_widget ["Cat"; "car"]).
Defined.

(** X2: a suggestion is rendered unchanged exactly when the text of the
    input occurs nowhere in it, up to case. *)
Theorem unmatched_suggestion_unchanged (q term : string) :
  q <> EmptyString ->
  (replace_strong ("(" ++ escapeRegExp q ++ ")") term = term
   <-> ~ occurs_in q term).
Proof.
  intros Hq. unfold replace_strong. rewrite literal_of_escaped.
  unfold replace_literal. destruct q as [|x q]; [congruence|]. split.
  - intros Heq (before & rest & -> & Hocc).
    apply occurs_starts_with in Hocc.
    assert (Hne : rest <> EmptyString) by (intros ->; discriminate).
    pose proof (replace_loop_grows (String x q) before
                  (String.length (before ++ rest)) rest
                  (Nat.le_refl _) Hne Hocc) as Hlt.
    rewrite Heq in Hlt. lia.
  - intros Hno. apply replace_loop_unmatched.
    intros before rest -> .
    destruct (starts_with (String x q) rest) eqn:Hs; [|reflexivity].
    exfalso. apply Hno. exists before, rest. split; [reflexivity|].
    apply starts_with_occurs, Hs.
Qed.

Lemma unmatched_suggestion_unchanged_witness :
  ~ occurs_in "ca" "dog".
Proof.
  apply (proj1 (unmatched_suggestion_unchanged "ca" "dog"
                  ltac:(discriminate))).
  reflexivity.
Defined.

(** ** The rendered list *)

Section Rendered.

Lemma count_from_app (i : Z) (a b : nat) :
  count_from i (a + b) = (count_from i a ++ count_from (i + Z.of_nat a) b)%list.
Proof.
  revert i. induction a as [|a IH]; intros i.
  - cbn. now rewrite Z.add_0_r.
  - cbn [Nat.add count_from app]. rewrite IH. do 3 f_equal. lia.
Qed.

Lemma render_items_positions raw source total terms :
  forall i,
  map (fun it => Some (aria_posinset it))
      (render_items raw source total i terms)
  = count_from i (List.length terms).
Proof.
  induction terms as [|t rest IH]; intros i; [reflexivity|].
  cbn. now rewrite IH.
Qed.

Lemma number_extras_positions len extras :
  forall index,
  map extra_posinset (number_extras len index extras)
  = count_from (len + index) (List.length extras).
Proof.
  induction extras as [|e rest IH]; intros index; [reflexivity|].
  cbn. rewrite IH. do 2 f_equal. lia.
Qed.

Lemma number_extras_twice len extras :
  forall index,
  number_extras len index (number_extras len index extras)
  = number_extras len index extras.
Proof.
  induction extras as [|e rest IH]; intros index; [reflexivity|].
  cbn. now rewrite IH.
Qed.

Lemma render_items_setsize raw source total terms :
  forall i it,
  In it (render_items raw source total i terms) -> aria_setsize it = total.
Proof.
  induction terms as [|t rest IH]; intros i it H; [destruct H|].
  destruct H as [<-|H]; [reflexivity|]. apply (IH _ _ H).
Qed.

End Rendered.

(** X3: after [suggest] has rendered, the positions of the rendered items
    followed by those of the extra items of the container are 1, 2, ...
    up to the number of suggestions plus the number of extra items, in
    order; when the container holds no extra items, every rendered item
    carries the number of suggestions as its set size. *)
Theorem rendered_positions_are_consecutive (w : widget)
    (suggestions : list string) :
  suggestions <> [] -> el_value w <> EmptyString ->
  let w' := suggest suggestions w in
  positions w'
  = count_from 0 (List.length suggestions + List.length (extra_items w))
  /\ (extra_items w = [] ->
      forall it, In it (list_items w') ->
                 aria_setsize it = zlength suggestions).
Proof.
  intros Hl Hv w'.
  destruct (suggest_renders w suggestions Hl Hv)
    as (_ & _ & Hitems & Hextras & _).
  subst w'. unfold positions. rewrite Hitems, Hextras. split.
  - rewrite render_items_positions, number_extras_positions, count_from_app.
    do 2 f_equal. unfold zlength. lia.
  - intros Hx it Hin. apply render_items_setsize in Hin.
    rewrite Hin, Hx. reflexivity.
Qed.

Lemma rendered_positions_are_consecutive_witness :
  positions (suggest ["cat"; "car"] sample_with_extra)
  = [Some 1; Some 2; Some 3].
Proof.
  exact (proj1 (rendered_positions_are_consecutive sample_with_extra
                  ["cat"; "car"] ltac:(discriminate) ltac:(discriminate))).
Defined.

Ltac fields :=
  cbv beta iota zeta delta
      [_show emit set_emitted set_popover Popover.show Popover.isShown
       Popover.shown Popover.hide negb andb
       _options touch _enabled el_value el_focused el_loading
       keyinput_handlers _popover list_items extra_items _selected
       _suggestions _originalQuery _currentQuery _suggestionsQuantity
       _stopTyping ready_timer clock emitted
       set_el_loading set_list_items set_suggestions set_extra_items
       set_selected set_suggestionsQuantity].

Section Again.

Lemma zlength_number_extras len index extras :
  zlength (number_extras len index extras) = zlength extras.
Proof. unfold zlength. now rewrite number_extras_length. Qed.

Lemma suggest_idempotent (w : widget) (suggestions : list string) :
  suggest suggestions (suggest suggestions w) = suggest suggestions w.
Proof.
  unfold suggest.
  destruct w as [o tch en v foc ld kh [sh] its exs sel sug oq cq qty st rt ck log].
  fields.
  destruct ((zlength suggestions =? 0)
            || String.eqb (escapeRegExp v) EmptyString) eqn:G.
  - fields. rewrite G. reflexivity.
  - destruct sh, foc; fields; rewrite G; fields;
      rewrite ?zlength_number_extras, ?number_extras_twice; reflexivity.
Qed.

(** What [suggest] never touches, whether it renders or not. *)
Lemma suggest_keeps (w : widget) (suggestions : list string) :
  let w' := suggest suggestions w in
  _options w' = _options w /\ touch w' = touch w
  /\ _enabled w' = _enabled w /\ el_value w' = el_value w
  /\ el_focused w' = el_focused w /\ el_loading w' = false
  /\ keyinput_handlers w' = keyinput_handlers w
  /\ _originalQuery w' = _originalQuery w
  /\ _currentQuery w' = _currentQuery w
  /\ _stopTyping w' = _stopTyping w /\ ready_timer w' = ready_timer w
  /\ clock w' = clock w
  /\ (isShown w' = true -> el_focused w = true \/ isShown w = true)
  /\ (emitted w' = emitted w \/ emitted w' = (emitted w ++ [Show])%list).
Proof.
  unfold suggest, isShown.
  destruct w as [o tch en v foc ld kh [sh] its exs sel sug oq cq qty st rt ck log].
  fields.
  destruct ((zlength suggestions =? 0)
            || String.eqb (escapeRegExp v) EmptyString).
  - fields. repeat split; auto. discriminate.
  - destruct sh, foc; fields; repeat split; auto; discriminate.
Qed.

End Again.

(** X4: a second call of [suggest] with the same list changes nothing: the
    same items are rendered, the extra items keep their positions, and no
    second [show] event is emitted. *)
Theorem suggest_twice (w : widget) (suggestions : list string) :
  suggest suggestions (suggest suggestions w) = suggest suggestions w
  /\ emitted (suggest suggestions (suggest suggestions w))
     = emitted (suggest suggestions w).
Proof.
  rewrite suggest_idempotent. split; reflexivity.
Qed.

(** ** Hovering and highlighting *)

Section Hover.

Lemma _select_outside (t : target) (w : widget) :
  same_outside_selection w (_select t w).
Proof.
  unfold _select, _toogleHighlighted.
  destruct (posinset_of t w); destruct w; repeat split.
Qed.



End Hover.






(** ** Steps and events *)

Ltac count_events :=
  unfold count_ready, count_show, count_select;
  rewrite ?filter_app, ?length_app; cbn; try lia; try reflexivity.

Section Steps.

Lemma keyinput_cases (value : string) (w : widget) :
  keyinput value w
  = match keyinput_handlers w with
    | O => set_el_value value w
    | S _ => on_keyinput (set_el_value value w)
    end.
Proof.
  unfold keyinput. destruct w. cbn.
  destruct keyinput_handlers0 as [|n]; [reflexivity|].
  apply repeat_on_keyinput.
Qed.

Lemma same_outside_ready (w w' : widget) :
  same_outside_selection w w' -> same_ready w w'.
Proof.
  intros (_ & _ & _ & _ & _ & _ & _ & _ & _ & _ & _ & _ & _ & H1 & H2 & H3).
  repeat split; congruence.
Qed.

Lemma same_ready_trans (a b c : widget) :
  same_ready a b -> same_ready b c -> same_ready a c.
Proof. intros (H1 & H2 & H3) (K1 & K2 & K3). repeat split; congruence. Qed.

Lemma on_pointerdown_ready (t : target) (w : widget) :
  same_ready w (on_pointerdown t w).
Proof.
  unfold on_pointerdown, _setQuery, el_blur, on_blur, hide.
  destruct w as [o tch en v foc ld kh [sh] its exs sel sug oq cq qty st rt ck log].
  cbn. destruct (is_icon t && negb (html o));
    [destruct en; repeat split; cbn; count_events|].
  destruct (is_item t || parent_is_item t); [|repeat split].
  destruct sel; [|repeat split].
  destruct (html o), foc, en; repeat split; cbn; count_events.
Qed.

Lemma run_same_ready (o : op) (w : widget) :
  (forall dt, o <> Wait dt) -> same_ready w (run o w).
Proof.
  intros Hw. destruct o as [l| | | |v|t|t| | |dt]; cbn [run].
  - destruct (suggest_keeps w l)
      as (_ & _ & _ & _ & _ & _ & _ & _ & _ & _ & Hr & Hc & _ & [He|He]);
      repeat split; try assumption; rewrite He; count_events.
  - destruct w; repeat split; cbn; count_events.
  - unfold focus, on_focus. destruct w; cbn.
    destruct el_focused0, _enabled0; repeat split.
  - unfold blur, el_blur, on_blur, hide. destruct w; cbn.
    destruct el_focused0, _enabled0; repeat split; cbn; count_events.
  - rewrite keyinput_cases. destruct w; cbn.
    destruct keyinput_handlers0; repeat split.
  - unfold mouseover. destruct (touch w); [repeat split|].
    apply same_outside_ready, _select_outside.
  - unfold mousedown.
    eapply same_ready_trans; [|apply on_pointerdown_ready].
    destruct (touch w); [|repeat split].
    apply same_outside_ready, _select_outside.
  - unfold disable, on_disable, el_blur, on_blur, hide, isShown.
    destruct w as [o tch en v foc ld kh [sh] its exs sel sug oq cq qty st rt ck log].
    cbn. destruct sh, foc; repeat split; cbn; count_events.
  - destruct w; repeat split.
  - exfalso. apply (Hw dt). reflexivity.
Qed.

Lemma advance_ready (start dt : Z) (w : widget) :
  0 <= dt -> ready_state start w -> ready_state start (advance dt w).
Proof.
  intros Hdt H. unfold advance, run_until, fire_ready, fire_stopTyping.
  destruct w as [o tch en v foc ld kh [sh] its exs sel sug oq cq qty st rt ck log].
  unfold ready_state in *. cbn in *.
  destruct H as [(-> & Hc & Hlt)|(-> & Hc & Hle)].
  - cbn. destruct (Z.leb_spec (start + 50) (ck + dt)).
    + right. destruct st as [d|]; cbn;
        [destruct (d <=? ck + dt); [destruct (d <? start + 50)|]|];
        destruct en; cbn; repeat split; try lia;
        unfold count_ready in *; rewrite ?filter_app, ?length_app; cbn; lia.
    + left. destruct st as [d|]; cbn; [destruct (d <=? ck + dt)|];
        destruct en; cbn; repeat split; try lia;
        unfold count_ready in *; rewrite ?filter_app, ?length_app; cbn; lia.
  - right. cbn. destruct st as [d|]; cbn; [destruct (d <=? ck + dt)|];
      destruct en; cbn; repeat split; try lia;
      unfold count_ready in *; rewrite ?filter_app, ?length_app; cbn; lia.
Qed.

Lemma run_ready (start : Z) (o : op) (w : widget) :
  forward o -> ready_state start w -> ready_state start (run o w).
Proof.
  intros Hf H.
  assert (Hcases : (exists dt, o = Wait dt) \/ forall dt, o <> Wait dt).
  { destruct o; try (right; intros dt0 E; discriminate E).
    left. eexists. reflexivity. }
  destruct Hcases as [[dt ->]|Hn].
  - apply advance_ready; assumption.
  - destruct (run_same_ready o w Hn) as (H1 & H2 & H3).
    unfold ready_state. rewrite H1, H2, H3. exact H.
Qed.

End Steps.

Section Runs.

Lemma run_all_ready (start : Z) (ops : list op) :
  Forall forward ops ->
  forall w, ready_state start w -> ready_state start (run_all ops w).
Proof.
  induction 1 as [|o ops Ho _ IH]; intros w H; [exact H|].
  cbn. apply IH, run_ready; assumption.
Qed.

Lemma same_outside_shown (w w' : widget) :
  same_outside_selection w w' -> shown_with_focus w -> shown_with_focus w'.
Proof.
  intros (_ & _ & He & _ & Hf & _ & _ & Hp & _) [H1 H2].
  unfold shown_with_focus, isShown. rewrite He, Hf, Hp. split; assumption.
Qed.

Lemma on_pointerdown_shown (t : target) (w : widget) :
  shown_with_focus w -> shown_with_focus (on_pointerdown t w).
Proof.
  unfold shown_with_focus, isShown, on_pointerdown, _setQuery, el_blur,
    on_blur, hide.
  destruct w as [o tch en v foc ld kh [sh] its exs sel sug oq cq qty st rt ck log].
  cbn. intros [-> H].
  destruct (is_icon t && negb (html o)); [cbn; auto|].
  destruct (is_item t || parent_is_item t); [|cbn; auto].
  destruct sel; [|cbn; auto].
  destruct (html o), foc; cbn; split; auto; try discriminate.
Qed.

Lemma advance_shown (dt : Z) (w : widget) :
  shown_with_focus w -> shown_with_focus (advance dt w).
Proof.
  unfold shown_with_focus, isShown, advance, run_until, fire_ready,
    fire_stopTyping.
  destruct w as [o tch en v foc ld kh [sh] its exs sel sug oq cq qty st rt ck log].
  cbn. intros [-> H].
  destruct rt as [r|], st as [d|]; cbn;
    repeat match goal with
           | |- context [if ?b then _ else _] => destruct b; cbn
           end; auto.
Qed.

Lemma run_shown (o : op) (w : widget) :
  not_disabling o -> shown_with_focus w -> shown_with_focus (run o w).
Proof.
  intros Ho H. destruct o as [l| | | |v|t|t| | |dt]; cbn [run].
  - destruct H as [He Hs].
    destruct (suggest_keeps w l)
      as (_ & _ & He' & _ & Hf & _ & _ & _ & _ & _ & _ & _ & Hsh & _).
    split; [congruence|]. intros Hshown. rewrite Hf.
    destruct (Hsh Hshown); auto.
  - destruct H as [He _]. destruct w; split; [exact He|discriminate].
  - revert H. unfold shown_with_focus, isShown, focus, on_focus.
    destruct w as [o tch en v foc ld kh [sh] its exs sel sug oq cq qty st rt ck log].
    cbn. intros [-> H]. destruct foc; cbn; auto.
  - revert H. unfold shown_with_focus, isShown, blur, el_blur, on_blur, hide.
    destruct w as [o tch en v foc ld kh [sh] its exs sel sug oq cq qty st rt ck log].
    cbn. intros [-> H]. destruct foc; cbn; split; auto; discriminate.
  - rewrite keyinput_cases. revert H. unfold shown_with_focus, isShown.
    destruct w; cbn. destruct keyinput_handlers0; cbn; auto.
  - unfold mouseover. destruct (touch w); [exact H|].
    exact (same_outside_shown _ _ (_select_outside _ w) H).
  - unfold mousedown. apply on_pointerdown_shown.
    destruct (touch w); [|exact H].
    exact (same_outside_shown _ _ (_select_outside _ w) H).
  - destruct Ho.
  - revert H. unfold shown_with_focus, isShown. destruct w; cbn.
    intros [_ H]. auto.
  - apply advance_shown, H.
Qed.

Lemma run_all_shown (ops : list op) :
  Forall not_disabling ops ->
  forall w, shown_with_focus w -> shown_with_focus (run_all ops w).
Proof.
  induction 1 as [|o ops Ho _ IH]; intros w H; [exact H|].
  cbn. apply IH, run_shown; assumption.
Qed.

Lemma advance_idle (dt : Z) (w : widget) :
  _stopTyping w = None ->
  typing_events (emitted (advance dt w)) = typing_events (emitted w)
  /\ _stopTyping (advance dt w) = None
  /\ _enabled (advance dt w) = _enabled w
  /\ keyinput_handlers (advance dt w) = keyinput_handlers w
  /\ _originalQuery (advance dt w) = _originalQuery w.
Proof.
  unfold advance, run_until, fire_ready.
  destruct w as [o tch en v foc ld kh [sh] its exs sel sug oq cq qty st rt ck log].
  cbn. intros ->. cbn. destruct (due (ck + dt) rt); cbn;
    rewrite ?typing_events_app, ?app_nil_r; repeat split; reflexivity.
Qed.

Lemma run_deaf (o : op) (w : widget) :
  not_enabling_nor_pressing o -> deaf w ->
  deaf (run o w)
  /\ typing_events (emitted (run o w)) = typing_events (emitted w)
  /\ _originalQuery (run o w) = _originalQuery w.
Proof.
  intros Ho (He & Hk & Hs).
  destruct o as [l| | | |v|t|t| | |dt]; cbn [run]; try (destruct Ho).
  - destruct (suggest_keeps w l)
      as (_ & _ & He' & _ & _ & _ & Hk' & Hq & _ & Hs' & _ & _ & _ & Hlog).
    unfold deaf. rewrite He', Hk', Hs', Hq.
    repeat split; try assumption.
    destruct Hlog as [-> | ->]; [reflexivity|].
    rewrite typing_events_app. apply app_nil_r.
  - revert He Hk Hs. unfold deaf. destruct w; cbn. intros -> -> ->.
    rewrite typing_events_app, app_nil_r. repeat split.
  - revert He Hk Hs. unfold deaf, focus, on_focus. destruct w; cbn.
    intros -> -> ->. destruct el_focused0; repeat split.
  - revert He Hk Hs. unfold deaf, blur, el_blur, on_blur. destruct w; cbn.
    intros -> -> ->. destruct el_focused0; repeat split.
  - rewrite keyinput_cases. revert He Hk Hs. unfold deaf. destruct w; cbn.
    intros -> -> ->. repeat split.
  - assert (Hframe : same_outside_selection w (mouseover t w)).
    { unfold mouseover. destruct (touch w); [repeat split|].
      apply _select_outside. }
    destruct Hframe
      as (_ & _ & He' & _ & _ & _ & Hk' & _ & _ & Hq & _ & _ & Hs' & _ & _ & Hl).
    unfold deaf. rewrite He', Hk', Hs', Hq, Hl. repeat split; assumption.
  - revert He Hk Hs.
    unfold deaf, disable, on_disable, el_blur, on_blur, hide, isShown.
    destruct w as [o tch en v foc ld kh [sh] its exs sel sug oq cq qty st rt ck log].
    cbn. intros -> -> ->. destruct sh, foc; cbn;
      rewrite ?typing_events_app, ?app_nil_r; repeat split.
  - destruct (advance_idle dt w Hs) as (H1 & H2 & H3 & H4 & H5).
    unfold deaf. rewrite H1, H2, H3, H4, H5. repeat split; assumption.
Qed.

Lemma run_all_deaf (ops : list op) :
  Forall not_enabling_nor_pressing ops ->
  forall w, deaf w ->
  deaf (run_all ops w)
  /\ typing_events (emitted (run_all ops w)) = typing_events (emitted w)
  /\ _originalQuery (run_all ops w) = _originalQuery w.
Proof.
  induction 1 as [|o ops Ho _ IH]; intros w H.
  - split; [exact H|split; reflexivity].
  - cbn. destruct (run_deaf o w Ho H) as (Hd & Ht & Hq).
    destruct (IH _ Hd) as (Hd' & Ht' & Hq').
    split; [exact Hd'|].
    split; [rewrite <- Ht; exact Ht'|rewrite <- Hq; exact Hq'].
Qed.

End Runs.

(** X8: whatever steps the widget goes through, as long as time does not
    run backwards, [ready] is emitted at most once: not at all before 50
    have passed since the widget was built, and exactly once from then
    on. *)
Theorem ready_emitted_once (ops : list op) o is_touch value focused now :
  Forall forward ops ->
  let w := run_all ops (AutoComplete o is_touch value focused now) in
  (count_ready (emitted w) <= 1)%nat
  /\ (count_ready (emitted w) = 1%nat <-> now + 50 <= clock w).
Proof.
  intros Hops w.
  assert (H0 : ready_state now (AutoComplete o is_touch value focused now)).
  { left. cbn. repeat split. lia. }
  destruct (run_all_ready now ops Hops _ H0) as [(_ & Hc & Hlt)|(_ & Hc & Hle)];
    fold w in Hc; rewrite Hc.
  - fold w in Hlt. split; [lia|]. split; [intros E; discriminate E|lia].
  - fold w in Hle. split; [lia|]. split; [intros _; exact Hle|reflexivity].
Qed.

Lemma ready_emitted_once_witness :
  count_ready
    (emitted (run_all [Wait 30; Focus; Wait 30; KeyInput "c"; Wait 1000]
                (AutoComplete _defaults false "ca" false 0)))
  = 1%nat.
Proof.
  apply (proj2 (ready_emitted_once
                  [Wait 30; Focus; Wait 30; KeyInput "c"; Wait 1000]
                  _defaults false "ca" false 0
                  ltac:(repeat constructor; cbn; lia))).
  vm_compute. discriminate.
Defined.

(** X9: as long as the widget is not disabled, its popover is never shown
    while the input is without the focus, whatever steps it goes through
    after it was built. *)
Theorem popover_shown_only_with_focus (ops : list op)
    o is_touch value focused now :
  Forall not_disabling ops ->
  let w := run_all ops (AutoComplete o is_touch value focused now) in
  isShown w = true -> el_focused w = true.
Proof.
  intros Hops w.
  assert (H0 : shown_with_focus (AutoComplete o is_touch value focused now)).
  { split; [reflexivity|discriminate]. }
  exact (proj2 (run_all_shown ops Hops _ H0)).
Qed.

Lemma popover_shown_only_with_focus_witness :
  el_focused (run_all [Focus; Suggest ["cat"]; KeyInput "cat"]
                (AutoComplete _defaults false "ca" false 0)) = true.
Proof.
  apply (popover_shown_only_with_focus
           [Focus; Suggest ["cat"]; KeyInput "cat"]
           _defaults false "ca" false 0).
  - repeat constructor.
  - vm_compute. reflexivity.
Defined.

(** X10: on a disabled widget with no keystroke handler bound and no
    keystroke timeout pending, no sequence of suggest, hide, focus, blur,
    keystroke, hover, disable and waiting steps emits a [typing] event,
    binds a keystroke handler or captures an original query. *)
Theorem disabled_widget_emits_no_typing (ops : list op) (w : widget) :
  deaf w -> Forall not_enabling_nor_pressing ops ->
  typing_events (emitted (run_all ops w)) = typing_events (emitted w)
  /\ keyinput_handlers (run_all ops w) = O
  /\ _originalQuery (run_all ops w) = _originalQuery w.
Proof.
  intros Hd Hops.
  destruct (run_all_deaf ops Hops w Hd) as ((_ & Hk & _) & Ht & Hq).
  auto.
Qed.

Lemma disabled_widget_emits_no_typing_witness :
  typing_events
    (emitted (run_all [Focus; KeyInput "cab"; Wait 400]
                (disable (AutoComplete _defaults false "ca" false 0))))
  = [].
Proof.
  refine (proj1 (disabled_widget_emits_no_typing
                   [Focus; KeyInput "cab"; Wait 400]
                   (disable (AutoComplete _defaults false "ca" false 0))
                   _ _)).
  - repeat split.
  - repeat constructor.
Defined.

(** X11: a press on a rendered item (or, with the html option, on its
    icon) cancels the pending keystroke timeout: however long one waits
    afterwards, no [typing] event follows. *)
Theorem commit_cancels_pending_typing (w : widget) (t : target) :
  is_item t || parent_is_item t = true ->
  is_icon t && negb (html (_options w)) = false ->
  _stopTyping (on_pointerdown t w) = None
  /\ forall dt,
       typing_events (emitted (advance dt (on_pointerdown t w)))
       = typing_events (emitted w).
Proof.
  intros Ht Hi.
  assert (H : _stopTyping (on_pointerdown t w) = None
              /\ typing_events (emitted (on_pointerdown t w))
                 = typing_events (emitted w)).
  { unfold on_pointerdown. rewrite Hi, Ht.
    unfold _setQuery, el_blur, on_blur, hide.
    destruct w as [o tch en v foc ld kh [sh] its exs sel sug oq cq qty st rt ck log].
    cbn. destruct sel; [|split; reflexivity].
    destruct (html o), foc, en; cbn; rewrite ?typing_events_app; cbn;
      rewrite ?app_nil_r; split; reflexivity. }
  destruct H as [Hs Hlog]. split; [exact Hs|]. intros dt.
  destruct (advance_idle dt _ Hs) as (-> & _). exact Hlog.
Qed.

Lemma commit_cancels_pending_typing_witness :
  _stopTyping (keyinput "cab" sample_highlighted) = Some 400
  /\ typing_events
       (emitted (advance 1000
          (on_pointerdown (ItemLi 1) (keyinput "cab" sample_highlighted))))
     = [].
Proof.
  split; [reflexivity|].
  exact (proj2 (commit_cancels_pending_typing
                  (keyinput "cab" sample_highlighted) (ItemLi 1)
                  eq_refl eq_refl) 1000).
Defined.

(** X12: without the html option, a press on the completion icon leaves
    a pending keystroke timeout in place: [typing] is emitted at once with
    the completed text as the input keeps it, that is without its line
    breaks, and again with the same text when the timeout runs. *)
Theorem icon_press_keeps_pending_typing (w : widget) (t : target) (d dt : Z) :
  is_icon t = true -> html (_options w) = false ->
  _stopTyping w = Some d -> d <= clock w + dt ->
  let s := strip_line_breaks (suggestion_at (_suggestions w) (_selected w)) in
  typing_events (emitted (advance dt (on_pointerdown t w)))
  = (typing_events (emitted w) ++ [s; s])%list.
Proof.
  intros Ht Hh Hst Hd s.
  assert (H : _stopTyping (on_pointerdown t w) = Some d
              /\ clock (on_pointerdown t w) = clock w
              /\ el_value (on_pointerdown t w) = s
              /\ typing_events (emitted (on_pointerdown t w))
                 = (typing_events (emitted w) ++ [s])%list).
  { subst s. unfold on_pointerdown, assign_value. rewrite Ht, Hh.
    cbn [andb negb].
    destruct w as [o tch en v foc ld kh [sh] its exs sel sug oq cq qty st rt ck log].
    cbn -[suggestion_at strip_line_breaks] in *.
    destruct en; cbn -[suggestion_at strip_line_breaks];
      rewrite typing_events_app; repeat split; assumption. }
  destruct H as (Hst' & Hck & Hv & Hlog).
  destruct (advance_after dt d _ Hst' ltac:(lia)) as (-> & _).
  rewrite Hlog, Hv, <- app_assoc. reflexivity.
Qed.

Lemma icon_press_keeps_pending_typing_witness :
  _suggestions sample_two_lines = ["ca" ++ line_feed ++ "r"]
  /\ typing_events
       (emitted (advance 400
          (on_pointerdown (ItemIcon 0) (keyinput "cab" sample_two_lines))))
     = ["car"; "car"].
Proof.
  split; [reflexivity|].
  exact (icon_press_keeps_pending_typing
           (keyinput "cab" sample_two_lines) (ItemIcon 0) 400 400
           eq_refl eq_refl eq_refl ltac:(vm_compute; discriminate)).
Defined.



Section Missing.

Lemma suggestion_at_missing (l : list string) (sel : option Z) :
  (forall k, sel = Some k -> k < 0 \/ zlength l <= k) ->
  suggestion_at l sel = "undefined".
Proof.
  intros H. destruct sel as [k|]; [|reflexivity].
  unfold suggestion_at. destruct (Z.leb_spec 0 k); [|reflexivity].
  apply nth_overflow. destruct (H k eq_refl); unfold zlength in *; lia.
Qed.

End Missing.

(** X14: without the html option, when the selected index is null or is
    no position into the suggestions (an extra item is selected), a press
    on the completion icon writes the text undefined into the input; so
    does a press on an item while the selected index is not null, which
    also emits one [select] event. *)
Theorem commit_without_suggestion_writes_undefined (w : widget) (t : target) :
  html (_options w) = false ->
  (forall k, _selected w = Some k -> k < 0 \/ zlength (_suggestions w) <= k) ->
  (is_icon t = true -> el_value (on_pointerdown t w) = "undefined")
  /\ (is_icon t = false -> is_item t || parent_is_item t = true ->
      _selected w <> None ->
      el_value (on_pointerdown t w) = "undefined"
      /\ count_select (emitted (on_pointerdown t w))
         = S (count_select (emitted w))).
Proof.
  intros Hh Hsel. pose proof (suggestion_at_missing _ _ Hsel) as Hs.
  unfold on_pointerdown, _setQuery, el_blur, on_blur, hide, assign_value.
  rewrite Hh. split.
  - intros ->. cbn [andb negb].
    destruct w; cbn -[suggestion_at] in *. rewrite Hs.
    destruct _enabled0; reflexivity.
  - intros -> -> Hne. cbn [andb].
    destruct w as [o tch en v foc ld kh [sh] its exs sel sug oq cq qty st rt ck log].
    cbn -[suggestion_at] in *. destruct sel as [k|]; [|congruence].
    rewrite Hh, Hs.
    destruct foc, en; cbn; (split; [reflexivity|count_events]).
Qed.

Lemma commit_without_suggestion_writes_undefined_witness :
  el_value
    (on_pointerdown (ExtraLi 0)
       (mouseover (ExtraLi 0) (suggest ["cat"] sample_with_extra)))
  = "undefined".
Proof.
  refine (proj1 (proj2 (commit_without_suggestion_writes_undefined
            (mouseover (ExtraLi 0) (suggest ["cat"] sample_with_extra))
            (ExtraLi 0) eq_refl _) eq_refl eq_refl _)).
  - intros k H. vm_compute in H. injection H as <-. right.
    vm_compute. discriminate.
  - vm_compute. discriminate.
Defined.

Section Binding.

Lemma same_outside_bound (w w' : widget) :
  same_outside_selection w w' -> bound_at_most_once w ->
  bound_at_most_once w'.
Proof.
  intros (_ & _ & He & _ & Hf & _ & Hk & _) H.
  unfold bound_at_most_once. rewrite He, Hf, Hk. exact H.
Qed.

Lemma on_pointerdown_bound (t : target) (w : widget) :
  bound_at_most_once w -> bound_at_most_once (on_pointerdown t w).
Proof.
  unfold bound_at_most_once, on_pointerdown, _setQuery, el_blur, on_blur, hide.
  destruct w as [o tch en v foc ld kh [sh] its exs sel sug oq cq qty st rt ck log].
  cbn. intros (-> & Hk & Hf).
  destruct (is_icon t && negb (html o)); [cbn; auto|].
  destruct (is_item t || parent_is_item t); [|cbn; auto].
  destruct sel; [|cbn; auto].
  destruct (html o), foc; cbn; repeat split; auto; lia.
Qed.

Lemma run_bound (o : op) (w : widget) :
  not_disabling o -> bound_at_most_once w -> bound_at_most_once (run o w).
Proof.
  intros Ho H. destruct o as [l| | | |v|t|t| | |dt]; cbn [run].
  - destruct (suggest_keeps w l)
      as (_ & _ & He & _ & Hf & _ & Hk & _).
    unfold bound_at_most_once. rewrite He, Hf, Hk. exact H.
  - destruct w; exact H.
  - revert H. unfold bound_at_most_once, focus, on_focus.
    destruct w; cbn. intros (-> & Hk & Hf).
    destruct el_focused0; cbn; repeat split; auto.
    + rewrite (Hf eq_refl). lia.
    + discriminate.
  - revert H. unfold bound_at_most_once, blur, el_blur, on_blur, hide.
    destruct w; cbn. intros (-> & Hk & Hf).
    destruct el_focused0; cbn; repeat split; auto; lia.
  - rewrite keyinput_cases. revert H. unfold bound_at_most_once.
    destruct w; cbn. destruct keyinput_handlers0; cbn; auto.
  - unfold mouseover. destruct (touch w); [exact H|].
    exact (same_outside_bound _ _ (_select_outside _ w) H).
  - unfold mousedown. apply on_pointerdown_bound.
    destruct (touch w); [|exact H].
    exact (same_outside_bound _ _ (_select_outside _ w) H).
  - destruct Ho.
  - revert H. unfold bound_at_most_once. destruct w; cbn.
    intros (_ & Hk & Hf). auto.
  - revert H.
    unfold bound_at_most_once, advance, run_until, fire_ready, fire_stopTyping.
    destruct w as [o tch en v foc ld kh [sh] its exs sel sug oq cq qty st rt ck log].
    cbn. intros (-> & Hk & Hf).
    destruct rt as [r|], st as [d|]; cbn;
      repeat match goal with
             | |- context [if ?b then _ else _] => destruct b; cbn
             end; auto.
Qed.

End Binding.

(** X15: as long as the widget is not disabled, it never has more than
    one keystroke handler bound, and none while the input is without the
    focus, whatever steps it goes through after it was built. *)
Theorem one_keystroke_handler_while_enabled (ops : list op)
    o is_touch value focused now :
  Forall not_disabling ops ->
  let w := run_all ops (AutoComplete o is_touch value focused now) in
  (keyinput_handlers w <= 1)%nat
  /\ (el_focused w = false -> keyinput_handlers w = O).
Proof.
  intros Hops w. subst w.
  assert (H : bound_at_most_once
                (run_all ops (AutoComplete o is_touch value focused now))).
  { assert (H0 : bound_at_most_once
                   (AutoComplete o is_touch value focused now)).
    { repeat split; cbn; auto. }
    revert H0. generalize (AutoComplete o is_touch value focused now).
    induction Hops as [|op ops Hop _ IH]; intros w H0; [exact H0|].
    cbn. apply IH, run_bound; assumption. }
  exact (proj2 H).
Qed.

Lemma one_keystroke_handler_while_enabled_witness :
  (keyinput_handlers
     (run_all [Focus; Blur; Focus; Suggest ["cat"]; MouseDown (ItemLi 0); Focus]
        (AutoComplete _defaults false "ca" false 0)) <= 1)%nat.
Proof.
  apply (one_keystroke_handler_while_enabled
           [Focus; Blur; Focus; Suggest ["cat"]; MouseDown (ItemLi 0); Focus]
           _defaults false "ca" false 0).
  repeat constructor.
Defined.
